(** * Moving-average filters ([mov_avg_filters.py]): a shallow embedding

    The Python module computes sliding-window means over sample arrays.
    Arrays of floats are lists of [sample]s: a sample is either the
    not-a-number marker or a rational value.  The means are computed in
    exact arithmetic (canonical rationals [Qc]): the rounding that the sums
    and quotients of doubles add to a value is not represented, nor are the
    infinities.  Rounding is represented where it decides something
    discrete: [round_double] is the rounding of a rational to the nearest
    double, used for the product that [int()] truncates in [mov_avg_time]
    and for the bounds of the time window in
    [mov_avg_time_variable_freq_fl].  Frequencies, durations and timestamps
    are the rational values of the doubles the caller passes.  Integer
    arguments (sample counts, indices) are [Z], with Python's slicing and
    [range] conventions written out.  A call either returns or raises:
    public functions return a [result]. *)

From Stdlib Require Import ZArith QArith Qcanon Qround Qabs Lia.
From stdpp Require Import base numbers option list gmap.

Local Open Scope Z_scope.

(** ** Samples and call outcomes *)

Inductive sample : Type :=
  | NaN
  | Num (q : Qc).

#[global] Instance sample_eq_dec : EqDecision sample.
Proof. solve_decision. Defined.

#[global] Instance sample_inhabited : Inhabited sample := populate NaN.

(** The exceptions that matter here.  [InvalidArgument] is the error kind
    named by the specification; no [raise] of the source produces it.
    [TypeError] stands for an operation applied to an object of the wrong
    kind (an array of the wrong rank), [OverflowError] for a number that
    does not fit the machine type it is converted to. *)
Inductive exn : Type :=
  | IndexError
  | ValueError
  | RuntimeError
  | TypeError
  | OverflowError
  | InvalidArgument.

#[global] Instance exn_eq_dec : EqDecision exn.
Proof. solve_decision. Defined.

Inductive result (A : Type) : Type :=
  | Ok (a : A)
  | Raise (e : exn).

Arguments Ok {A} a.
Arguments Raise {A} e.

#[global] Instance result_eq_dec `{EqDecision A} : EqDecision (result A).
Proof. solve_decision. Defined.

#[global] Instance result_ret : MRet result := λ A a, Ok a.

#[global] Instance result_bind : MBind result := λ A B f m,
  match m with
  | Ok a => f a
  | Raise e => Raise e
  end.

(** A [for] loop whose body may raise: the first exception ends the loop. *)
Fixpoint for_each {S : Type} (body : Z → S → result S) (idxs : list Z) (s : S)
  : result S :=
  match idxs with
  | [] => Ok s
  | i :: rest => s' ← body i s; for_each body rest s'
  end.

(** ** Python and numpy primitives *)

Definition len {A : Type} (l : list A) : Z := Z.of_nat (length l).

(** [range(start, stop, step)] for a non-zero [step]. *)
Definition py_range (start stop step : Z) : list Z :=
  if decide (0 < step) then
    (λ k, start + k * step) <$> seqZ 0 ((stop - start + step - 1) / step)
  else if decide (step < 0) then
    (λ k, start + k * step) <$> seqZ 0 ((start - stop - step - 1) / (- step))
  else [].

(** A slice bound [k] of a sequence of length [n]: a negative bound counts
    from the end, and every bound is clipped to [0..n]. *)
Definition clip_index (n k : Z) : Z :=
  if decide (k < 0) then Z.max (k + n) 0 else Z.min k n.

Definition slice_lo {A : Type} (l : list A) (start : option Z) : nat :=
  Z.to_nat (from_option (clip_index (len l)) 0 start).

Definition slice_hi {A : Type} (l : list A) (stop : option Z) : nat :=
  Z.to_nat (from_option (clip_index (len l)) (len l) stop).

(** [l[start:stop]]; [None] is an omitted bound. *)
Definition py_slice {A : Type} (l : list A) (start stop : option Z) : list A :=
  take (slice_hi l stop - slice_lo l start) (drop (slice_lo l start) l).

(** [l[start:stop] = v] for a scalar [v]. *)
Definition py_slice_fill {A : Type} (l : list A) (start stop : option Z) (v : A)
  : list A :=
  let lo := slice_lo l start in
  let hi := slice_hi l stop in
  take lo l ++ replicate (hi - lo) v ++ drop (lo + (hi - lo)) l.

(** [l[start:stop] = vs] for an array [vs]: the shapes must agree, a
    one-element array is broadcast, any other length raises. *)
Definition py_slice_set {A : Type} (l : list A) (start stop : option Z)
    (vs : list A) : result (list A) :=
  let lo := slice_lo l start in
  let hi := slice_hi l stop in
  if decide (length vs = (hi - lo)%nat) then
    Ok (take lo l ++ vs ++ drop (lo + (hi - lo)) l)
  else
    match vs with
    | [v] => Ok (py_slice_fill l start stop v)
    | _ => Raise ValueError
    end.

(** [l[i] = v] for an index [0 <= i < len(l)], the only way the loops of
    this module index their output. *)
Definition setitem {A : Type} (l : list A) (i : Z) (v : A) : list A :=
  <[Z.to_nat i := v]> l.

Definition isnan (s : sample) : bool :=
  match s with
  | NaN => true
  | Num _ => false
  end.

(** [a.any] is a bound method; calling it gives the disjunction. *)
Definition np_any (mask : list bool) : unit → bool :=
  λ _, existsb id mask.

(** Truth value of a function object that is tested without being called:
    Python objects are truthy unless they define otherwise. *)
Definition truthy_method {A B : Type} (_ : A → B) : bool := true.

Definition finite_values (l : list sample) : list Qc :=
  omap (λ s, match s with Num q => Some q | NaN => None end) l.

Definition Qc_sum (l : list Qc) : Qc := foldr Qcplus (Qc_of_Z 0) l.

(** Arithmetic mean of a non-empty list of values. *)
Definition Qc_mean (vs : list Qc) : Qc :=
  (Qc_sum vs / Qc_of_Z (len vs))%Qc.

(** [np.nanmean]: the mean of the entries that are not NaN; NaN for an empty
    or all-NaN argument (numpy only warns). *)
Definition nanmean (l : list sample) : sample :=
  match finite_values l with
  | [] => NaN
  | vs => Num (Qc_mean vs)
  end.

(** Float addition, subtraction and division by a count, NaN propagating. *)
Definition sample_add (a b : sample) : sample :=
  match a, b with
  | Num p, Num q => Num (p + q)%Qc
  | _, _ => NaN
  end.

Definition sample_sub (a b : sample) : sample :=
  match a, b with
  | Num p, Num q => Num (p - q)%Qc
  | _, _ => NaN
  end.

Definition sample_div_Z (a : sample) (k : Z) : sample :=
  match a with
  | Num p => Num (p / Qc_of_Z k)%Qc
  | NaN => NaN
  end.

(** ** scipy.ndimage.uniform_filter1d *)

(** Index of the sample that stands at position [k] of the array extended
    by reflection about its edges ([d c b a | a b c d | d c b a]). *)
Definition reflect_index (n k : Z) : Z :=
  let m := k `mod` (2 * n) in
  if decide (m < n) then m else 2 * n - 1 - m.

(** The outputs of a running mean: the first one, then one per update. *)
Fixpoint running_mean (tmp : sample) (updates : list sample) : list sample :=
  match updates with
  | [] => [tmp]
  | d :: rest => tmp :: running_mean (sample_add tmp d) rest
  end.

(** Modelled from the spec: [scipy.ndimage.uniform_filter1d(y, size=size,
    origin=0, mode='reflect')] is library code, not part of the repository.
    Following section 4.3 step 2, section 9 (a running sum that adds and
    drops one element per step) and scipy's documentation: the line is the
    array extended by reflection, [line k] standing at position
    [k - size//2]; output 0 is the mean of [line 0 .. line (size-1)], and
    output [i] is output [i-1] plus [(line (i+size-1) - line (i-1)) / size]
    (dividing the running sum at each output instead gives the same values
    here, and a NaN that enters the sum stays in it either way).  A size
    below one is rejected, and so is one that does not fit a signed 64-bit
    integer. *)
Definition uniform_filter1d (input : list sample) (size : Z)
  : result (list sample) :=
  if decide (size < 1) then Raise RuntimeError
  else if decide (2 ^ 63 ≤ size) then Raise OverflowError
  else
    let n := len input in
    if decide (n = 0) then Ok []
    else
      let line k := input !!! Z.to_nat (reflect_index n (k - size / 2)) in
      let tmp :=
        sample_div_Z
          (foldr sample_add (Num (Qc_of_Z 0)) (line <$> seqZ 0 size)) size in
      Ok (running_mean tmp
            ((λ i, sample_div_Z
                     (sample_sub (line (i + size - 1)) (line (i - 1))) size)
               <$> seqZ 1 (n - 1))).

(** ** The module's functions *)

(** [iterable[0]] first: an empty argument raises; the first element of a
    series is a scalar, that of a batch is an array. *)
Inductive series_arg : Type :=
  | Series (y : list sample)
  | Batch (ys : list (list sample)).

Definition containsScalars (iterable : series_arg) : result bool :=
  match iterable with
  | Series [] => Raise IndexError
  | Series (_ :: _) => Ok true
  | Batch [] => Raise IndexError
  | Batch (_ :: _) => Ok false
  end.

(** The expression
    [np.nanmean(y[np.maximum(i-samples_before,0):np.minimum(i+samples_after,len(y))+1])]
    of lines 100, 163 and 166.  The integers are unbounded: numpy's
    conversion of an operand of magnitude [2^63] or more raises an
    [OverflowError] that is not represented, and the theorems that state
    that a call returns keep the operands below that bound. *)
Definition clipped_nanmean (y : list sample) (i samples_before samples_after : Z)
  : sample :=
  nanmean (py_slice y (Some (Z.max (i - samples_before) 0))
                      (Some (Z.min (i + samples_after) (len y) + 1))).

Definition mov_avg_loop (y : list sample) (samples_before samples_after : Z)
  : result (list sample) :=
  let samples_after :=
    if decide (samples_after = -1) then samples_before else samples_after in
  let y_filt := y in
  let y_filt :=
    foldl (λ y_filt i,
             setitem y_filt i (clipped_nanmean y i samples_before samples_after))
          y_filt (py_range 0 (len y) 1) in
  Ok y_filt.

(** [int(np.ceil(d/2))]. *)
Definition ceil_half (d : Z) : Z := - ((- d) / 2).

Definition mov_avg_no_nan (y : list sample) (samples_before samples_after : Z)
  : result (list sample) :=
  let samples_after :=
    if decide (samples_after = -1) then samples_before else samples_after in
  let size := samples_before + samples_after + 1 in
  y_filt ← uniform_filter1d y size;
  let shift := ceil_half (samples_after - samples_before) in
  y_filt ←
    (if decide (shift > 0) then
       y_filt ← py_slice_set y_filt None (Some (- shift))
                  (py_slice y_filt (Some shift) None);
       Ok (py_slice_fill y_filt (Some (- shift)) None NaN)
     else Ok y_filt);
  y_filt ←
    (if decide (shift < 0) then
       y_filt ← py_slice_set y_filt (Some (- shift)) None
                  (py_slice y_filt None (Some shift));
       Ok (py_slice_fill y_filt None (Some (- shift)) NaN)
     else Ok y_filt);
  let y_filt :=
    foldl (λ y_filt i,
             setitem y_filt i (clipped_nanmean y i samples_before samples_after))
          y_filt
          (py_range 0 (Z.min (samples_before + Z.abs shift) (len y)) 1) in
  let y_filt :=
    foldl (λ y_filt i,
             setitem y_filt i (clipped_nanmean y i samples_before samples_after))
          y_filt
          (py_range (len y - 1)
                    (Z.max 0 (len y - samples_after - Z.abs shift - 1)) (-1)) in
  Ok y_filt.

(** Line 53 tests [np.isnan(y).any], the method itself, and both branches
    pass [samples_after = -1] whatever the caller gave. *)
Definition mov_avg (y : list sample) (samples_before samples_after : Z)
  : result (list sample) :=
  if truthy_method (np_any (isnan <$> y)) then
    mov_avg_loop y samples_before (-1)
  else
    mov_avg_no_nan y samples_before (-1).

(** ** Doubles *)

(** The integer nearest to [q], the even one of the two when [q] is halfway. *)
Definition round_half_even (q : Q) : Z :=
  let f := Qfloor q in
  match (q - inject_Z f ?= 1 # 2)%Q with
  | Lt => f
  | Eq => if Z.even f then f else f + 1
  | Gt => f + 1
  end.

(** The exponent [e] with [2^e <= |q| < 2^(e+1)], for [q] other than zero. *)
Definition binade (q : Q) : Z :=
  let e := Z.log2 (Z.abs (Qnum q)) - Z.log2 (Z.pos (Qden q)) in
  if Qle_bool (Qpower 2 e) (Qabs q) then e else e - 1.

(** Rounding to the nearest IEEE-754 double, ties to even: 53 significant
    bits, and below [2^-1022] the fixed spacing [2^-1074] of the subnormal
    numbers.  The exponent is not bounded above: a result of magnitude
    [2^1024] or more stands for an infinite double. *)
Definition round_double (q : Qc) : Qc :=
  if decide (q = Qc_of_Z 0) then q
  else
    let ulp := Qpower 2 (Z.max (binade q) (-1022) - 52) in
    Q2Qc (inject_Z (round_half_even (q / ulp)) * ulp).

Definition double_is_finite (r : Qc) : Prop :=
  (Qc_of_Z (- 2 ^ 1024) < r)%Qc ∧ (r < Qc_of_Z (2 ^ 1024))%Qc.

#[global] Instance double_is_finite_dec r : Decision (double_is_finite r).
Proof. unfold double_is_finite. apply _. Defined.

(** The product of two doubles. *)
Definition double_mul (a b : Qc) : Qc := round_double (a * b).

(** Truncation toward zero. *)
Definition py_int (q : Qc) : Z := Z.quot (Qnum q) (Z.pos (Qden q)).

(** [int(r)] for a double [r]: an infinite one cannot be converted. *)
Definition int_of_double (r : Qc) : result Z :=
  if decide (double_is_finite r) then Ok (py_int r) else Raise OverflowError.

(** [freq] and the two durations are finite doubles; their products are
    rounded before [int()] truncates them (lines 197 and 199). *)
Definition mov_avg_time (y : list sample) (freq time_units_before time_units_after : Qc)
  : result (list sample) :=
  samples_before ← int_of_double (double_mul time_units_before freq);
  samples_after ←
    (if decide (time_units_after ≠ Qc_of_Z (-1))
     then int_of_double (double_mul time_units_after freq)
     else Ok (-1));
  y_filt ← mov_avg y samples_before samples_after;
  Ok y_filt.

(** ** Arrays of rank 0, 1 and 2, and the variable-rate engine *)

Inductive ndarray : Type :=
  | Arr0 (v : sample)
  | Arr1 (l : list sample)
  | Arr2 (rows : list (list sample)).

#[global] Instance ndarray_eq_dec : EqDecision ndarray.
Proof. solve_decision. Defined.

Definition ncols (rows : list (list sample)) : nat :=
  from_option length 0%nat (head rows).

Definition shape (a : ndarray) : list nat :=
  match a with
  | Arr0 _ => []
  | Arr1 l => [length l]
  | Arr2 rows => [length rows; ncols rows]
  end.

(** The shape the caller sees on the argument. *)
Definition arg_shape (a : series_arg) : list nat :=
  match a with
  | Series y => [length y]
  | Batch ys => [length ys; ncols ys]
  end.

(** [[listYarrays]]; only ever applied to a series, for which
    [containsScalars] answered true. *)
Definition add_dimension (a : series_arg) : series_arg :=
  match a with
  | Series y => Batch [y]
  | Batch ys => Batch ys
  end.

(** [np.array(listYarrays).astype("float")] where a rank-2 array is needed:
    rows of unequal length do not make a float array.  A series reaches this
    point wrapped by [add_dimension], so the first case is never met; it
    stands for the failure of [a[:, indexes]] on a rank-1 array. *)
Definition np_array_float (a : series_arg) : result (list (list sample)) :=
  match a with
  | Series _ => Raise IndexError
  | Batch ys =>
      if decide (Forall (λ r, length r = ncols ys) ys) then Ok ys
      else Raise ValueError
  end.

(** Comparisons of floats: false as soon as one side is NaN. *)
Definition sample_lt (a b : sample) : bool :=
  match a, b with
  | Num p, Num q => bool_decide (p < q)%Qc
  | _, _ => false
  end.

Definition sample_gt (a b : sample) : bool := sample_lt b a.

(** [w[mask(w)] = np.nan]. *)
Definition mask_nan (mask : sample → bool) (w : list sample) : list sample :=
  (λ t, if mask t then NaN else t) <$> w.

(** [np.argwhere(~np.isnan(w))], as a flat list of indices. *)
Definition argwhere_not_nan (w : list sample) : list nat :=
  filter (λ j, isnan (w !!! j) = false) (seq 0 (length w)).

(** [row[indexes]]: fancy indexing raises on an index past the end. *)
Definition take_indexes (row : list sample) (indexes : list nat)
  : result (list sample) :=
  foldr (λ j acc,
           match row !! j with
           | Some v => rest ← acc; Ok (v :: rest)
           | None => Raise IndexError
           end) (Ok []) indexes.

(** [np.squeeze(np.nanmean(a[:, indexes], axis = 1))]: one mean per row. *)
Definition nanmean_columns (a : list (list sample)) (indexes : list nat)
  : result (list sample) :=
  foldr (λ row acc,
           vals ← take_indexes row indexes;
           rest ← acc;
           Ok (nanmean vals :: rest)) (Ok []) a.

(** The mean that goes to column [i] of a row, for the index sets [idx]. *)
Definition column_mean (idx : Z → list nat) (i : Z) (row : list sample) : sample :=
  nanmean ((λ j, row !!! j) <$> idx i).

(** [a[:, i] = vals], one value per row. *)
Definition set_column (a : list (list sample)) (i : Z) (vals : list sample)
  : result (list (list sample)) :=
  if decide (0 ≤ i < Z.of_nat (ncols a)) then
    Ok (zip_with (λ row v, setitem row i v) a vals)
  else Raise IndexError.

(** [np.squeeze]: every axis of length one is dropped. *)
Definition np_squeeze (a : list (list sample)) : ndarray :=
  match a with
  | [[v]] => Arr0 v
  | [row] => Arr1 row
  | rows =>
      if forallb (λ r, bool_decide (length r = 1%nat)) rows
      then Arr1 (concat rows)
      else Arr2 rows
  end.

(** The engine, its arithmetic on timestamps taken exactly;
    [mov_avg_time_variable_freq_fl] below adds the rounding of the two
    window bounds. *)
Definition mov_avg_time_variable_freq (x : list sample) (listYarrays : series_arg)
    (time_units_before time_units_after : Qc) : result ndarray :=
  let oneArrayFlag := false in
  c ← containsScalars listYarrays;
  let '(oneArrayFlag, listYarrays) :=
    if c : bool then (true, add_dimension listYarrays)
    else (oneArrayFlag, listYarrays) in
  let time_units_after :=
    if decide (time_units_after = Qc_of_Z (-1)) then time_units_before
    else time_units_after in
  arrayYarrays ← np_array_float listYarrays;
  let arrayYarrays_filt := arrayYarrays in
  arrayYarrays_filt ←
    for_each (λ i arrayYarrays_filt,
                let this_moment := x !!! Z.to_nat i in
                let timing_window := x in
                let timing_window :=
                  mask_nan (λ t, sample_lt t
                                   (sample_sub this_moment (Num time_units_before)))
                           timing_window in
                let timing_window :=
                  mask_nan (λ t, sample_gt t
                                   (sample_add this_moment (Num time_units_after)))
                           timing_window in
                let indexes := argwhere_not_nan timing_window in
                vals ← nanmean_columns arrayYarrays indexes;
                set_column arrayYarrays_filt i vals)
             (py_range 0 (len x) 1) arrayYarrays_filt;
  if oneArrayFlag : bool then Ok (np_squeeze arrayYarrays_filt)
  else Ok (Arr2 arrayYarrays_filt).

(** A float operation whose exact result is rounded by [fl]. *)
Definition sample_round (fl : Qc → Qc) (s : sample) : sample :=
  match s with
  | Num q => Num (fl q)
  | NaN => NaN
  end.

(** The same function with the rounding of the two window bounds written
    out: [this_moment-time_units_before] and [this_moment+time_units_after]
    of lines 251 and 253 are a subtraction and an addition of doubles, and
    their results are rounded by [fl] before the timestamps are compared
    with them.  [x] holds the timestamps after the conversion of line 243.
    With [fl := round_double] this is the arithmetic of the program; with
    the identity it is [mov_avg_time_variable_freq]. *)
Definition mov_avg_time_variable_freq_fl (fl : Qc → Qc) (x : list sample)
    (listYarrays : series_arg) (time_units_before time_units_after : Qc)
  : result ndarray :=
  let oneArrayFlag := false in
  c ← containsScalars listYarrays;
  let '(oneArrayFlag, listYarrays) :=
    if c : bool then (true, add_dimension listYarrays)
    else (oneArrayFlag, listYarrays) in
  let time_units_after :=
    if decide (time_units_after = Qc_of_Z (-1)) then time_units_before
    else time_units_after in
  arrayYarrays ← np_array_float listYarrays;
  let arrayYarrays_filt := arrayYarrays in
  arrayYarrays_filt ←
    for_each (λ i arrayYarrays_filt,
                let this_moment := x !!! Z.to_nat i in
                let timing_window := x in
                let timing_window :=
                  mask_nan (λ t, sample_lt t
                                   (sample_round fl
                                      (sample_sub this_moment (Num time_units_before))))
                           timing_window in
                let timing_window :=
                  mask_nan (λ t, sample_gt t
                                   (sample_round fl
                                      (sample_add this_moment (Num time_units_after))))
                           timing_window in
                let indexes := argwhere_not_nan timing_window in
                vals ← nanmean_columns arrayYarrays indexes;
                set_column arrayYarrays_filt i vals)
             (py_range 0 (len x) 1) arrayYarrays_filt;
  if oneArrayFlag : bool then Ok (np_squeeze arrayYarrays_filt)
  else Ok (Arr2 arrayYarrays_filt).

(** [len(a)]: a rank-0 array has no length. *)
Definition array_len (a : ndarray) : option nat :=
  match a with
  | Arr0 _ => None
  | Arr1 l => Some (length l)
  | Arr2 rows => Some (length rows)
  end.

(** ** The specification's wording, for comparison with the code *)

Definition sample_value (s : sample) : option Qc :=
  match s with
  | Num q => Some q
  | NaN => None
  end.

(** Mean of a collection of values, the missing marker when it is empty. *)
Definition mean_or_missing (vs : list Qc) : sample :=
  match vs with
  | [] => NaN
  | _ => Num (Qc_mean vs)
  end.

(** The non-missing values of [y] at the indices [lo..hi], both included
    (section 4.2). *)
Definition window_values (y : list sample) (lo hi : Z) : list Qc :=
  omap (λ j, y !! Z.to_nat j ≫= sample_value) (seqZ lo (hi - lo + 1)).

(** Timestamp [x[j]] lies within [t - before .. t + after], both ends
    included (section 4.6). *)
Definition within_window (xs : list Qc) (t before after : Qc) (j : nat) : Prop :=
  match xs !! j with
  | Some xj => (t - before ≤ xj)%Qc ∧ (xj ≤ t + after)%Qc
  | None => False
  end.

#[global] Instance within_window_dec xs t before after j :
  Decision (within_window xs t before after j).
Proof. unfold within_window. destruct (xs !! j); apply _. Defined.

(** The index set of the window at time [t]. *)
Definition time_window (xs : list Qc) (t before after : Qc) : list nat :=
  filter (within_window xs t before after) (seq 0 (length xs)).

(** The non-missing values of [y] at the indices [idxs]. *)
Definition values_at (y : list sample) (idxs : list nat) : list Qc :=
  omap (λ j, y !! j ≫= sample_value) idxs.

(** The series of window means of [row] along the timestamps [xs]. *)
Definition time_window_means (xs : list Qc) (row : list sample)
    (before after : Qc) : list sample :=
  (λ t, mean_or_missing (values_at row (time_window xs t before after))) <$> xs.

(** The window whose two bounds are rounded by [fl]: timestamp [x[j]] lies
    within [fl (t - before) .. fl (t + after)], both ends included. *)
Definition within_window_fl (fl : Qc → Qc) (xs : list Qc) (t before after : Qc)
    (j : nat) : Prop :=
  match xs !! j with
  | Some xj => (fl (t - before) ≤ xj)%Qc ∧ (xj ≤ fl (t + after))%Qc
  | None => False
  end.

#[global] Instance within_window_fl_dec fl xs t before after j :
  Decision (within_window_fl fl xs t before after j).
Proof. unfold within_window_fl. destruct (xs !! j); apply _. Defined.

Definition time_window_fl (fl : Qc → Qc) (xs : list Qc) (t before after : Qc)
  : list nat :=
  filter (within_window_fl fl xs t before after) (seq 0 (length xs)).

Definition time_window_means_fl (fl : Qc → Qc) (xs : list Qc) (row : list sample)
    (before after : Qc) : list sample :=
  (λ t, mean_or_missing (values_at row (time_window_fl fl xs t before after)))
    <$> xs.

(** Literals. *)
Definition qz (z : Z) : sample := Num (Qc_of_Z z).
Definition qfrac (a : Z) (b : positive) : sample := Num (Q2Qc (a # b)).

(** The double nearest to 0.1, and the doubles
    [0, 0.1, 0.2, 0.30000000000000004, 0.4, 0.5] as a timestamp axis. *)
Definition double_tenth : Qc := Q2Qc (3602879701896397 # 36028797018963968).

Definition grid_x : list Qc :=
  [Qc_of_Z 0; double_tenth;
   Q2Qc (3602879701896397 # 18014398509481984);
   Q2Qc (1351079888211149 # 4503599627370496);
   Q2Qc (3602879701896397 # 9007199254740992);
   Q2Qc (1 # 2)].

Definition grid_y : list sample := [qz 1; qz 2; qz 4; qz 8; qz 16; qz 32].

(** ** The same functions over a store of arrays

    To speak about the caller's arrays after a call, arrays live in a store
    and the functions take and return locations.  [y.copy()],
    [np.array(..)], [.astype(..)] and [uniform_filter1d] allocate; item and
    slice assignments write the cell of the array they are applied to; every
    read goes through the store, so that an output aliasing an input would
    show. *)

Definition loc : Type := positive.

Abbreviation heap := (gmap loc ndarray).

Definition M (A : Type) : Type := heap → result A * heap.

Definition st_ret {A : Type} (a : A) : M A := λ h, (Ok a, h).

Definition st_bind {A B : Type} (m : M A) (f : A → M B) : M B :=
  λ h, match m h with
       | (Ok a, h') => f a h'
       | (Raise e, h') => (Raise e, h')
       end.

Notation "x ←ₛ m ; k" := (st_bind m (λ x, k))
  (at level 20, m at level 100, k at level 200, only parsing, right associativity).
Notation "m ;;ₛ k" := (st_bind m (λ _, k))
  (at level 100, k at level 200, only parsing, right associativity).

Definition lift {A : Type} (r : result A) : M A := λ h, (r, h).

Definition alloc (a : ndarray) : M loc :=
  λ h, let l := fresh (dom h) in (Ok l, <[l := a]> h).

Definition load (l : loc) : M ndarray :=
  λ h, match h !! l with
       | Some a => (Ok a, h)
       | None => (Raise TypeError, h)
       end.

Definition store (l : loc) (a : ndarray) : M unit :=
  λ h, (Ok tt, <[l := a]> h).

Definition as_rank1 (a : ndarray) : result (list sample) :=
  match a with
  | Arr1 y => Ok y
  | _ => Raise TypeError
  end.

Definition as_rank2 (a : ndarray) : result (list (list sample)) :=
  match a with
  | Arr2 rows => Ok rows
  | _ => Raise TypeError
  end.

Definition load1 (l : loc) : M (list sample) :=
  a ←ₛ load l; lift (as_rank1 a).

Definition load2 (l : loc) : M (list (list sample)) :=
  a ←ₛ load l; lift (as_rank2 a).

Fixpoint for_each_st (body : Z → M unit) (idxs : list Z) : M unit :=
  match idxs with
  | [] => st_ret tt
  | i :: rest => body i ;;ₛ for_each_st body rest
  end.

(** [y_filt[i] = np.nanmean(y[...])], reading [y] and writing [y_filt]. *)
Definition refix_item (y y_filt : loc) (samples_before samples_after i : Z)
  : M unit :=
  ys ←ₛ load1 y;
  f ←ₛ load1 y_filt;
  store y_filt (Arr1 (setitem f i (clipped_nanmean ys i samples_before samples_after))).

Definition mov_avg_loop_st (y : loc) (samples_before samples_after : Z) : M loc :=
  let samples_after :=
    if decide (samples_after = -1) then samples_before else samples_after in
  ys ←ₛ load1 y;
  y_filt ←ₛ alloc (Arr1 ys);
  for_each_st (refix_item y y_filt samples_before samples_after)
              (py_range 0 (len ys) 1) ;;ₛ
  st_ret y_filt.

Definition mov_avg_no_nan_st (y : loc) (samples_before samples_after : Z) : M loc :=
  let samples_after :=
    if decide (samples_after = -1) then samples_before else samples_after in
  let size := samples_before + samples_after + 1 in
  ys ←ₛ load1 y;
  u ←ₛ lift (uniform_filter1d ys size);
  y_filt ←ₛ alloc (Arr1 u);
  let shift := ceil_half (samples_after - samples_before) in
  (if decide (shift > 0) then
     f ←ₛ load1 y_filt;
     f ←ₛ lift (py_slice_set f None (Some (- shift)) (py_slice f (Some shift) None));
     store y_filt (Arr1 f) ;;ₛ
     f ←ₛ load1 y_filt;
     store y_filt (Arr1 (py_slice_fill f (Some (- shift)) None NaN))
   else st_ret tt) ;;ₛ
  (if decide (shift < 0) then
     f ←ₛ load1 y_filt;
     f ←ₛ lift (py_slice_set f (Some (- shift)) None (py_slice f None (Some shift)));
     store y_filt (Arr1 f) ;;ₛ
     f ←ₛ load1 y_filt;
     store y_filt (Arr1 (py_slice_fill f None (Some (- shift)) NaN))
   else st_ret tt) ;;ₛ
  for_each_st (refix_item y y_filt samples_before samples_after)
              (py_range 0 (Z.min (samples_before + Z.abs shift) (len ys)) 1) ;;ₛ
  for_each_st (refix_item y y_filt samples_before samples_after)
              (py_range (len ys - 1)
                        (Z.max 0 (len ys - samples_after - Z.abs shift - 1)) (-1)) ;;ₛ
  st_ret y_filt.

Definition mov_avg_st (y : loc) (samples_before samples_after : Z) : M loc :=
  ys ←ₛ load1 y;
  if truthy_method (np_any (isnan <$> ys)) then
    mov_avg_loop_st y samples_before (-1)
  else
    mov_avg_no_nan_st y samples_before (-1).

Definition mov_avg_time_st (y : loc) (freq time_units_before time_units_after : Qc)
  : M loc :=
  samples_before ←ₛ lift (int_of_double (double_mul time_units_before freq));
  samples_after ←ₛ
    lift (if decide (time_units_after ≠ Qc_of_Z (-1))
          then int_of_double (double_mul time_units_after freq)
          else Ok (-1));
  y_filt ←ₛ mov_avg_st y samples_before samples_after;
  st_ret y_filt.

(** What the caller passed as [listYarrays]: a rank-1 array is a series, a
    rank-2 array a batch; a rank-0 array cannot be indexed. *)
Definition as_series_arg (a : ndarray) : result series_arg :=
  match a with
  | Arr0 _ => Raise IndexError
  | Arr1 y => Ok (Series y)
  | Arr2 ys => Ok (Batch ys)
  end.

(** The body of the loop of [mov_avg_time_variable_freq]: [timing_window] is
    a fresh copy of [x], masked in place. *)
Definition variable_freq_item (x arrayYarrays arrayYarrays_filt : loc)
    (time_units_before time_units_after : Qc) (i : Z) : M unit :=
  xs ←ₛ load1 x;
  let this_moment := xs !!! Z.to_nat i in
  timing_window ←ₛ alloc (Arr1 xs);
  w ←ₛ load1 timing_window;
  store timing_window
    (Arr1 (mask_nan (λ t, sample_lt t (sample_sub this_moment (Num time_units_before))) w)) ;;ₛ
  w ←ₛ load1 timing_window;
  store timing_window
    (Arr1 (mask_nan (λ t, sample_gt t (sample_add this_moment (Num time_units_after))) w)) ;;ₛ
  w ←ₛ load1 timing_window;
  let indexes := argwhere_not_nan w in
  a ←ₛ load2 arrayYarrays;
  vals ←ₛ lift (nanmean_columns a indexes);
  f ←ₛ load2 arrayYarrays_filt;
  f ←ₛ lift (set_column f i vals);
  store arrayYarrays_filt (Arr2 f).

(** [np.squeeze] gives a view of the buffer of [arrayYarrays_filt]; the
    rank-2 array is not reachable after the return, so the cell itself takes
    the squeezed shape. *)
Definition mov_avg_time_variable_freq_st (x listYarrays : loc)
    (time_units_before time_units_after : Qc) : M loc :=
  let oneArrayFlag := false in
  arg ←ₛ load listYarrays;
  arg ←ₛ lift (as_series_arg arg);
  c ←ₛ lift (containsScalars arg);
  let '(oneArrayFlag, arg) :=
    if c : bool then (true, add_dimension arg) else (oneArrayFlag, arg) in
  let time_units_after :=
    if decide (time_units_after = Qc_of_Z (-1)) then time_units_before
    else time_units_after in
  xs ←ₛ load1 x;
  x ←ₛ alloc (Arr1 xs);
  a ←ₛ lift (np_array_float arg);
  arrayYarrays ←ₛ alloc (Arr2 a);
  arrayYarrays_filt ←ₛ alloc (Arr2 a);
  for_each_st (variable_freq_item x arrayYarrays arrayYarrays_filt
                 time_units_before time_units_after)
              (py_range 0 (len xs) 1) ;;ₛ
  (if oneArrayFlag : bool then
     f ←ₛ load2 arrayYarrays_filt;
     store arrayYarrays_filt (np_squeeze f)
   else st_ret tt) ;;ₛ
  st_ret arrayYarrays_filt.

Definition result_map {A B : Type} (f : A → B) (r : result A) : result B :=
  match r with
  | Ok a => Ok (f a)
  | Raise e => Raise e
  end.

(** A run from the store [h] leaves every array of [h] as it was, and its
    outcome is that of the function on values: the same exception, or a
    location that [h] did not hold and that now holds the result. *)
Definition returns_fresh (h : heap) (expected : result ndarray)
    (run : result loc * heap) : Prop :=
  h ⊆ run.2 ∧
  match expected with
  | Ok out => ∃ l, run.1 = Ok l ∧ h !! l = None ∧ run.2 !! l = Some out
  | Raise e => run.1 = Raise e
  end.

(** ** Further notions used to state properties of the functions *)

(** The index set computed at iteration [i] of the loop of
    [mov_avg_time_variable_freq] (lines 248 to 255), for any axis [x]. *)
Definition window_indexes (x : list sample) (before after : Qc) (i : Z)
  : list nat :=
  let this_moment := x !!! Z.to_nat i in
  argwhere_not_nan
    (mask_nan (λ t, sample_gt t (sample_add this_moment (Num after)))
       (mask_nan (λ t, sample_lt t (sample_sub this_moment (Num before))) x)).

(** Every non-missing sample of [l] lies in [lo .. hi]. *)
Definition samples_within (lo hi : Qc) (l : list sample) : Prop :=
  ∀ (j : nat) (q : Qc), l !! j = Some (Num q) → (lo ≤ q)%Qc ∧ (q ≤ hi)%Qc.
(** * Properties

    ** Ranges, slices and loops of item assignments *)

Section helpers.
Lemma py_range_up (n : Z) : py_range 0 n 1 = seqZ 0 n.
Proof.
  unfold py_range. rewrite decide_True by lia.
  replace ((n - 0 + 1 - 1) / 1) with n by (rewrite Z.div_1_r; lia).
  rewrite <- (list_fmap_id (seqZ 0 n)) at 2.
  apply list_fmap_ext. intros _ k _. simpl. lia.
Qed.

Lemma py_range_down (a b : Z) :
  py_range a b (-1) = (λ k, a - k) <$> seqZ 0 (a - b).
Proof.
  unfold py_range. rewrite decide_False by lia. rewrite decide_True by lia.
  replace ((a - b - -1 - 1) / - -1) with (a - b) by (simpl; rewrite Z.div_1_r; lia).
  apply list_fmap_ext. intros _ k _. simpl. lia.
Qed.

Lemma length_foldl_setitem {A} (f : Z → A) (idxs : list Z) (l : list A) :
  length (foldl (λ acc i, setitem acc i (f i)) l idxs) = length l.
Proof.
  revert l. induction idxs as [|i idxs IH]; intros l; simpl; [done|].
  rewrite IH. apply length_insert.
Qed.

Lemma lookup_foldl_setitem {A} (f : Z → A) (idxs : list Z) (l : list A) (k : nat) :
  Forall (λ i, 0 ≤ i) idxs →
  foldl (λ acc i, setitem acc i (f i)) l idxs !! k =
    if decide (Z.of_nat k ∈ idxs ∧ (k < length l)%nat) then Some (f (Z.of_nat k))
    else l !! k.
Proof.
  intros Hpos. revert l. induction Hpos as [|i idxs Hi Hpos IH]; intros l; cbn [foldl].
  - case_decide as H; [|done]. destruct H as [H _]. by apply elem_of_nil in H.
  - rewrite IH. unfold setitem. rewrite length_insert.
    destruct (decide (Z.of_nat k ∈ idxs ∧ (k < length l)%nat)) as [[Hin Hlt]|Hn].
    { rewrite decide_True; [done|]. split; [by right|done]. }
    destruct (decide (Z.of_nat k = i)) as [<-|Hne].
    + rewrite Nat2Z.id.
      destruct (decide (k < length l)%nat) as [Hlt|Hge].
      * rewrite decide_True by (split; [by left|done]).
        by rewrite list_lookup_insert_eq.
      * rewrite decide_False by (intros [_ ?]; done).
        by rewrite list_insert_ge by lia.
    + rewrite list_lookup_insert_ne by lia.
      rewrite decide_False; [done|].
      intros [Hin Hlt]. apply elem_of_cons in Hin as [Heq|Hin]; [done|].
      by apply Hn.
Qed.
End helpers.

(** ** The exact path in closed form *)

Lemma Forall_seqZ_nonneg (n : Z) : Forall (λ i, 0 ≤ i) (seqZ 0 n).
Proof. apply Forall_forall. intros i Hi. apply elem_of_seqZ in Hi. lia. Qed.

Lemma foldl_setitem_all {A} (f : Z → A) (l : list A) :
  foldl (λ acc i, setitem acc i (f i)) l (seqZ 0 (len l)) = f <$> seqZ 0 (len l).
Proof.
  apply list_eq. intros k.
  rewrite lookup_foldl_setitem by apply Forall_seqZ_nonneg.
  rewrite list_lookup_fmap. unfold len.
  destruct (decide (k < length l)%nat) as [Hlt|Hge].
  - rewrite decide_True by (rewrite elem_of_seqZ; split; [lia|done]).
    rewrite lookup_seqZ_lt by lia. simpl. by rewrite Z.add_0_l.
  - rewrite decide_False by (intros [_ ?]; done).
    rewrite lookup_seqZ_ge by lia. simpl. apply lookup_ge_None. lia.
Qed.

Lemma mov_avg_loop_eq (y : list sample) (b a : Z) :
  mov_avg_loop y b a =
    Ok ((λ i, clipped_nanmean y i b (if decide (a = -1) then b else a))
          <$> seqZ 0 (len y)).
Proof.
  unfold mov_avg_loop. rewrite py_range_up. f_equal.
  apply (foldl_setitem_all (λ i, clipped_nanmean y i b _)).
Qed.

Lemma mov_avg_loop_length (y out : list sample) (b a : Z) :
  mov_avg_loop y b a = Ok out → length out = length y.
Proof.
  rewrite mov_avg_loop_eq. intros [= <-].
  rewrite length_fmap, length_seqZ. unfold len. lia.
Qed.

Lemma mov_avg_loop_lookup (y : list sample) (b a : Z) (i : nat) :
  (i < length y)%nat →
  ∃ out, mov_avg_loop y b a = Ok out ∧
         out !! i = Some (clipped_nanmean y (Z.of_nat i) b
                            (if decide (a = -1) then b else a)).
Proof.
  intros Hi. eexists. split; [apply mov_avg_loop_eq|].
  rewrite list_lookup_fmap, lookup_seqZ_lt by (unfold len; lia).
  simpl. by rewrite Z.add_0_l.
Qed.

(** ** Slices as index ranges *)

Lemma take_drop_lookups {A} (l : list A) (lo k : nat) :
  (lo + k ≤ length l)%nat →
  Some <$> take k (drop lo l) = (λ j, l !! j) <$> seq lo k.
Proof.
  revert lo. induction k as [|k IH]; intros lo Hle; [done|].
  destruct (lookup_lt_is_Some_2 l lo) as [x Hx]; [lia|].
  rewrite (drop_S _ _ _ Hx). simpl. rewrite Hx. f_equal.
  apply IH. lia.
Qed.

Lemma omap_fmap_Some {A B} (g : A → option B) (l : list A) (idxs : list nat)
    (h : nat → option A) :
  Some <$> l = h <$> idxs →
  omap g l = omap (λ j, h j ≫= g) idxs.
Proof.
  revert idxs. induction l as [|x l IH]; intros [|j idxs] Heq; try done.
  simpl in Heq. injection Heq as Hx Hl.
  cbn [omap list_omap]. rewrite <- Hx. cbn [mbind option_bind].
  by rewrite (IH idxs Hl).
Qed.

Lemma omap_fmap {A B C} (f : A → B) (g : B → option C) (l : list A) :
  omap g (f <$> l) = omap (λ x, g (f x)) l.
Proof. induction l as [|x l IH]; [done|]. csimpl. by rewrite IH. Qed.

Lemma omap_ext_eq {A B} (f g : A → option B) (l : list A) :
  (∀ x, f x = g x) → omap f l = omap g l.
Proof. intros Hfg. induction l as [|x l IH]; [done|]. csimpl. by rewrite Hfg, IH. Qed.

Lemma seqZ_as_seq (lo k : nat) :
  seqZ (Z.of_nat lo) (Z.of_nat k) = Z.of_nat <$> seq lo k.
Proof.
  apply list_eq. intros i. rewrite list_lookup_fmap.
  destruct (decide (i < k)%nat) as [Hlt|Hge].
  - rewrite lookup_seqZ_lt by lia. rewrite lookup_seq_lt by lia. simpl. f_equal. lia.
  - rewrite lookup_seqZ_ge by lia. rewrite lookup_seq_ge by lia. done.
Qed.

Lemma py_slice_in_range {A} (l : list A) (lo hi : Z) :
  0 ≤ lo → lo ≤ hi → hi ≤ len l →
  py_slice l (Some lo) (Some hi) =
    take (Z.to_nat (hi - lo)) (drop (Z.to_nat lo) l).
Proof.
  intros H0 Hle Hhi. unfold py_slice, slice_lo, slice_hi, clip_index. simpl.
  rewrite !decide_False by lia.
  f_equal; [|f_equal]; lia.
Qed.

(** The slice taken at index [i] holds the samples at [max(i-b,0) ..
    min(i+a, n-1)]: the upper bound [min(i+a, n) + 1] is clipped again by
    the slicing. *)
Lemma clipped_slice (y : list sample) (i b a : Z) :
  0 ≤ i < len y → 0 ≤ b → 0 ≤ a →
  py_slice y (Some (Z.max (i - b) 0)) (Some (Z.min (i + a) (len y) + 1)) =
    take (Z.to_nat (Z.min (i + a) (len y - 1) - Z.max (i - b) 0 + 1))
         (drop (Z.to_nat (Z.max (i - b) 0)) y).
Proof.
  intros Hi Hb Ha. unfold py_slice, slice_lo, slice_hi, clip_index. simpl.
  rewrite !decide_False by lia.
  f_equal; [|f_equal]; lia.
Qed.

Lemma finite_values_window (y : list sample) (lo hi : Z) :
  0 ≤ lo → lo ≤ hi + 1 → hi < len y →
  finite_values (take (Z.to_nat (hi - lo + 1)) (drop (Z.to_nat lo) y)) =
    window_values y lo hi.
Proof.
  intros H0 Hle Hhi. unfold finite_values, window_values.
  rewrite (omap_fmap_Some _ _ (seq (Z.to_nat lo) (Z.to_nat (hi - lo + 1)))
             (λ j, y !! j)).
  2:{ apply take_drop_lookups. unfold len in Hhi. lia. }
  replace (seqZ lo (hi - lo + 1))
    with (seqZ (Z.of_nat (Z.to_nat lo)) (Z.of_nat (Z.to_nat (hi - lo + 1))))
    by (f_equal; lia).
  rewrite seqZ_as_seq, omap_fmap.
  symmetry. apply omap_ext_eq. intros j. simpl. by rewrite Nat2Z.id.
Qed.

Lemma clipped_nanmean_spec (y : list sample) (i b a : Z) :
  0 ≤ i < len y → 0 ≤ b → 0 ≤ a →
  clipped_nanmean y i b a =
    mean_or_missing (window_values y (Z.max (i - b) 0) (Z.min (i + a) (len y - 1))).
Proof.
  intros Hi Hb Ha. unfold clipped_nanmean, nanmean.
  rewrite clipped_slice by done.
  rewrite finite_values_window by lia.
  unfold mean_or_missing. by destruct (window_values _ _ _).
Qed.

(** ** The exact windowed mean *)

Ltac by_evaluation := apply (bool_decide_unpack _); vm_compute; exact I.

Lemma window_values_all_missing (y : list sample) (lo hi : Z) :
  (∀ j, lo ≤ j ≤ hi → y !! Z.to_nat j = Some NaN) →
  window_values y lo hi = [].
Proof.
  intros Hall. unfold window_values.
  assert (Hsub : ∀ j, j ∈ seqZ lo (hi - lo + 1) → y !! Z.to_nat j = Some NaN).
  { intros j Hj. apply elem_of_seqZ in Hj. apply Hall. lia. }
  induction (seqZ lo (hi - lo + 1)) as [|j l IH]; [done|].
  csimpl. rewrite (Hsub j) by left. csimpl. apply IH.
  intros j' Hj'. apply Hsub. by right.
Qed.

(** C3: for a window [(b, a)] with [b >= 0] and [a >= 0], [mov_avg_loop]
    returns an array of the length of [y] whose entry [i] is the mean of the
    non-missing values of [y] at the indices [max(i-b,0) .. min(i+a,n-1)],
    and the missing marker when every sample there is missing; on
    [[1, NaN, 3]] with window [(1, 1)] it returns [[1, 2, 3]]. *)
Theorem exact_windowed_mean (y : list sample) (b a : Z) :
  0 ≤ b → 0 ≤ a →
  (∃ out, mov_avg_loop y b a = Ok out ∧ length out = length y ∧
     ∀ i : nat, (i < length y)%nat →
       let lo := Z.max (Z.of_nat i - b) 0 in
       let hi := Z.min (Z.of_nat i + a) (len y - 1) in
       out !! i = Some (mean_or_missing (window_values y lo hi)) ∧
       ((∀ j, lo ≤ j ≤ hi → y !! Z.to_nat j = Some NaN) → out !! i = Some NaN))
  ∧ mov_avg_loop [qz 1; NaN; qz 3] 1 1 = Ok [qz 1; qz 2; qz 3].
Proof.
  intros Hb Ha. split; [|by_evaluation].
  eexists. split; [apply mov_avg_loop_eq|]. split.
  { rewrite length_fmap, length_seqZ. unfold len. lia. }
  intros i Hi lo hi.
  assert (Hout : ((λ i0, clipped_nanmean y i0 b (if decide (a = -1) then b else a))
                    <$> seqZ 0 (len y)) !! i
                 = Some (mean_or_missing (window_values y lo hi))).
  { rewrite list_lookup_fmap, lookup_seqZ_lt by (unfold len; lia).
    simpl. rewrite decide_False by lia.
    rewrite clipped_nanmean_spec by (unfold len; lia).
    by rewrite Z.add_0_l. }
  split; [done|].
  intros Hall. rewrite Hout. by rewrite window_values_all_missing.
Qed.

Lemma exact_windowed_mean_witness :
  0 ≤ 1 ∧ 0 ≤ 0 ∧
  ∃ out, mov_avg_loop [qz 1; qz 2; qz 3; qz 4; qz 5] 1 0 = Ok out ∧
         length out = 5%nat.
Proof.
  split; [lia|]. split; [lia|].
  destruct (exact_windowed_mean [qz 1; qz 2; qz 3; qz 4; qz 5] 1 0)
    as [(out & Hout & Hlen & _) _]; [lia|lia|].
  exists out. split; [exact Hout|exact Hlen].
Defined.

(** The scenario of section 8: window [(1, 0)] on [[1,2,3,4,5]]. *)
Example exact_mean_scenario :
  mov_avg_loop [qz 1; qz 2; qz 3; qz 4; qz 5] 1 0 =
    Ok [qz 1; qfrac 3 2; qfrac 5 2; qfrac 7 2; qfrac 9 2].
Proof. by_evaluation. Qed.

(** ** The dispatcher *)

Lemma mov_avg_loop_sentinel (y : list sample) (b : Z) :
  mov_avg_loop y b (-1) = mov_avg_loop y b b.
Proof.
  rewrite !mov_avg_loop_eq. rewrite decide_True by done.
  by destruct (decide (b = -1)).
Qed.

(** Whatever [y] holds and whatever [samples_after] is, the dispatcher runs
    the exact path with the symmetric window. *)
Lemma mov_avg_always_exact_symmetric (y : list sample) (b a : Z) :
  mov_avg y b a = mov_avg_loop y b b.
Proof. unfold mov_avg, truthy_method. apply mov_avg_loop_sentinel. Qed.

(** C1: the dispatcher does not follow its contract.  On the NaN-free series
    [[1,2,3,4,5]] with window [(1, 0)] it returns the exact path's result for
    the window [(1, 1)], which differs from the fast path's result for
    [(1, 0)]; on [[1, NaN, 3]] with window [(1, 0)] it differs from the exact
    path's result for [(1, 0)]. *)
Theorem dispatcher_drops_after_and_fast_path :
  let y := [qz 1; qz 2; qz 3; qz 4; qz 5] in
  let z := [qz 1; NaN; qz 3] in
  np_any (isnan <$> y) () = false ∧
  mov_avg y 1 0 = Ok [qfrac 3 2; qz 2; qz 3; qz 4; qfrac 9 2] ∧
  mov_avg_no_nan y 1 0 = Ok [qz 1; qfrac 3 2; qfrac 5 2; qfrac 7 2; qfrac 9 2] ∧
  mov_avg y 1 0 ≠ mov_avg_no_nan y 1 0 ∧
  np_any (isnan <$> z) () = true ∧
  mov_avg z 1 0 = Ok [qz 1; qz 2; qz 3] ∧
  mov_avg_loop z 1 0 = Ok [qz 1; qz 1; qz 3] ∧
  mov_avg z 1 0 ≠ mov_avg_loop z 1 0.
Proof. repeat split; by_evaluation. Qed.

(** ** Zero window *)

Lemma Qc_mean_singleton (q : Qc) : Qc_mean [q] = q.
Proof.
  unfold Qc_mean, Qc_sum, len. cbn [foldr length].
  change (Z.of_nat 1) with 1.
  rewrite Z2Qc_inj_0, Z2Qc_inj_1. field. discriminate.
Qed.

Lemma seqZ_one (m : Z) : seqZ m 1 = [m].
Proof. done. Qed.

(** C5: [mov_avg(y, 0, 0)] is [y], missing values included. *)
Theorem zero_window_identity (y : list sample) :
  mov_avg y 0 0 = Ok y.
Proof.
  rewrite mov_avg_always_exact_symmetric, mov_avg_loop_eq.
  rewrite decide_False by lia. f_equal.
  apply list_eq. intros k. rewrite list_lookup_fmap.
  destruct (y !! k) as [s|] eqn:Hk.
  - assert (Hlt := lookup_lt_Some _ _ _ Hk).
    rewrite lookup_seqZ_lt by (unfold len; lia). simpl. f_equal.
    rewrite clipped_nanmean_spec by (unfold len; lia).
    replace (Z.max (0 + Z.of_nat k - 0) 0) with (Z.of_nat k) by lia.
    replace (Z.min (0 + Z.of_nat k + 0) (len y - 1)) with (Z.of_nat k)
      by (unfold len; lia).
    unfold window_values.
    replace (Z.of_nat k - Z.of_nat k + 1) with 1 by lia.
    rewrite seqZ_one.
    csimpl. rewrite Nat2Z.id, Hk.
    destruct s as [|q]; [done|]. csimpl. by rewrite Qc_mean_singleton.
  - apply lookup_ge_None in Hk.
    by rewrite lookup_seqZ_ge by (unfold len; lia).
Qed.

(** ** The constant-rate adapter *)

(** Rounding to double on known values: 0.1 is not a double; the sum of the
    doubles 0.1 and 0.2 rounds up to 0.30000000000000004; past [2^53] the
    odd integers are ties and go to the even neighbour; half the smallest
    subnormal number rounds to zero. *)
Example round_double_values :
  round_double (Q2Qc (1 # 10)) = double_tenth ∧
  round_double double_tenth = double_tenth ∧
  round_double (double_tenth + Q2Qc (2 # 1) * double_tenth) =
    Q2Qc (1351079888211149 # 4503599627370496) ∧
  round_double (Qc_of_Z (2 ^ 53 + 1)) = Qc_of_Z (2 ^ 53) ∧
  round_double (Qc_of_Z (2 ^ 53 + 3)) = Qc_of_Z (2 ^ 53 + 4) ∧
  round_double (Qc_of_Z (- (2 ^ 53 + 1))) = Qc_of_Z (- 2 ^ 53) ∧
  round_double (Q2Qc (1 # 2 ^ 1075)) = Qc_of_Z 0 ∧
  round_double (Q2Qc (3 # 2 ^ 1075)) = Q2Qc (1 # 2 ^ 1073) ∧
  double_mul (Q2Qc (5404319552844595 # 18014398509481984)) (Qc_of_Z 10) =
    Qc_of_Z 3.
Proof. repeat split; by_evaluation. Qed.

Lemma mov_avg_returns (y : list sample) (b a : Z) :
  ∃ out, mov_avg y b a = Ok out ∧ length out = length y.
Proof.
  rewrite mov_avg_always_exact_symmetric, mov_avg_loop_eq.
  eexists. split; [done|]. rewrite length_fmap, length_seqZ. unfold len. lia.
Qed.

(** C8, as the code has it: [mov_avg_time] checks neither the frequency nor
    the durations, and no call of it ends with [InvalidArgument].  It goes
    on to compute with what [int()] gives: when the double product
    [time_units_before * freq] is finite and its truncation stays, with the
    length of [y], within the signed 64-bit integers, and
    [time_units_after] is the default or its product with [freq] is finite,
    the call returns an array of the length of [y], also for a frequency
    that is zero or negative and for a negative duration. *)
Theorem mov_avg_time_never_rejects (y : list sample) (freq before after : Qc) :
  mov_avg_time y freq before after ≠ Raise InvalidArgument ∧
  (double_is_finite (double_mul before freq) →
   Z.abs (py_int (double_mul before freq)) + len y < 2 ^ 63 →
   after = Qc_of_Z (-1) ∨ double_is_finite (double_mul after freq) →
   ∃ out, mov_avg_time y freq before after = Ok out ∧ length out = length y).
Proof.
  unfold mov_avg_time, int_of_double. split.
  - destruct (decide (double_is_finite (double_mul before freq)));
      cbn [mbind result_bind]; [|done].
    destruct (decide (after ≠ Qc_of_Z (-1)));
      [destruct (decide (double_is_finite (double_mul after freq)))|];
      cbn [mbind result_bind]; try done;
      match goal with |- context [mov_avg y ?b ?a] =>
        destruct (mov_avg_returns y b a) as (out & -> & _) end;
      cbn [mbind result_bind]; done.
  - intros Hb _ Ha.
    rewrite (decide_True (P := double_is_finite (double_mul before freq)))
      by done.
    cbn [mbind result_bind].
    destruct (decide (after ≠ Qc_of_Z (-1))) as [Hne|_];
      [rewrite (decide_True (P := double_is_finite (double_mul after freq)))
         by (by destruct Ha)|];
      cbn [mbind result_bind];
      match goal with |- context [mov_avg y ?b ?a] =>
        destruct (mov_avg_returns y b a) as (out & -> & Hlen) end;
      cbn [mbind result_bind]; by exists out.
Qed.

Lemma mov_avg_time_never_rejects_witness :
  double_is_finite (double_mul (Q2Qc (-3 # 2)) (Qc_of_Z (-2))) ∧
  Z.abs (py_int (double_mul (Q2Qc (-3 # 2)) (Qc_of_Z (-2))))
    + len [qz 1; NaN; qz 3] < 2 ^ 63 ∧
  (Qc_of_Z 7 = Qc_of_Z (-1) ∨ double_is_finite (double_mul (Qc_of_Z 7) (Qc_of_Z (-2)))) ∧
  ∃ out, mov_avg_time [qz 1; NaN; qz 3] (Qc_of_Z (-2)) (Q2Qc (-3 # 2)) (Qc_of_Z 7)
           = Ok out ∧ length out = 3%nat.
Proof.
  assert (H1 : double_is_finite (double_mul (Q2Qc (-3 # 2)) (Qc_of_Z (-2))))
    by by_evaluation.
  assert (H2 : Z.abs (py_int (double_mul (Q2Qc (-3 # 2)) (Qc_of_Z (-2))))
                 + len [qz 1; NaN; qz 3] < 2 ^ 63) by by_evaluation.
  assert (H3 : Qc_of_Z 7 = Qc_of_Z (-1)
               ∨ double_is_finite (double_mul (Qc_of_Z 7) (Qc_of_Z (-2))))
    by (right; by_evaluation).
  do 3 (split; [assumption|]).
  exact (proj2 (mov_avg_time_never_rejects
                  [qz 1; NaN; qz 3] (Qc_of_Z (-2)) (Q2Qc (-3 # 2)) (Qc_of_Z 7))
           H1 H2 H3).
Defined.

(** C8 as stated fails: a zero frequency and a negative duration are both
    accepted and produce an output. *)
Lemma mov_avg_time_accepts_invalid :
  (Qc_of_Z 0 ≤ Qc_of_Z 0)%Qc ∧
  mov_avg_time [qz 1; qz 2; qz 3] (Qc_of_Z 0) (Qc_of_Z 1) (Qc_of_Z (-1)) =
    Ok [qz 1; qz 2; qz 3] ∧
  mov_avg_time [qz 1; qz 2; qz 3] (Qc_of_Z 0) (Qc_of_Z 1) (Qc_of_Z (-1)) ≠
    Raise InvalidArgument ∧
  (Qc_of_Z (-1) < Qc_of_Z 0)%Qc ∧
  mov_avg_time [qz 1; qz 2; qz 3] (Qc_of_Z 1) (Qc_of_Z (-1)) (Qc_of_Z (-1)) =
    Ok [NaN; NaN; NaN] ∧
  mov_avg_time [qz 1; qz 2; qz 3] (Qc_of_Z 1) (Qc_of_Z (-1)) (Qc_of_Z (-1)) ≠
    Raise InvalidArgument.
Proof. repeat split; by_evaluation. Qed.

(** ** Empty input of the variable-rate engine *)

(** C10: on an empty series or an empty batch the shape test reads element 0
    and the call ends with an [IndexError], for every timestamp axis and
    every window. *)
Theorem variable_freq_empty_raises (x : list sample) (before after : Qc) :
  containsScalars (Series []) = Raise IndexError ∧
  containsScalars (Batch []) = Raise IndexError ∧
  mov_avg_time_variable_freq x (Series []) before after = Raise IndexError ∧
  mov_avg_time_variable_freq x (Batch []) before after = Raise IndexError.
Proof. done. Qed.

(** ** The fast path: realignment of the filtered array *)

Section realign.
Context {A : Type}.
Implicit Types (u : list A) (s : Z).

Lemma slice_lo_None u : slice_lo u None = 0%nat.
Proof. done. Qed.

Lemma slice_hi_None u : slice_hi u None = length u.
Proof. unfold slice_hi, len. simpl. lia. Qed.

Lemma slice_lo_pos u s :
  0 ≤ s → slice_lo u (Some s) = (Z.to_nat s `min` length u)%nat.
Proof.
  intros Hs. unfold slice_lo, clip_index, len. simpl.
  rewrite decide_False by lia. lia.
Qed.

Lemma slice_hi_pos u s :
  0 ≤ s → slice_hi u (Some s) = (Z.to_nat s `min` length u)%nat.
Proof.
  intros Hs. unfold slice_hi, clip_index, len. simpl.
  rewrite decide_False by lia. lia.
Qed.

Lemma slice_lo_neg u s :
  s < 0 → slice_lo u (Some s) = (length u - Z.to_nat (- s))%nat.
Proof.
  intros Hs. unfold slice_lo, clip_index, len. simpl.
  rewrite decide_True by lia. lia.
Qed.

Lemma slice_hi_neg u s :
  s < 0 → slice_hi u (Some s) = (length u - Z.to_nat (- s))%nat.
Proof.
  intros Hs. unfold slice_hi, clip_index, len. simpl.
  rewrite decide_True by lia. lia.
Qed.

(** [u[:-s] = u[s:]; u[-s:] = v] moves the array [s] places to the left. *)
Lemma shift_left_eq u s (v : A) :
  0 < s →
  (y_filt ← py_slice_set u None (Some (- s)) (py_slice u (Some s) None);
   Ok (py_slice_fill y_filt (Some (- s)) None v)) =
  Ok (drop (Z.to_nat s) u ++ replicate (Z.to_nat s `min` length u) v).
Proof.
  intros Hs. set (n := length u). set (t := Z.to_nat s).
  assert (Hsl : py_slice u (Some s) None = drop t u).
  { unfold py_slice. rewrite slice_hi_None, slice_lo_pos by lia.
    fold n t. destruct (decide (t ≤ n)%nat).
    - rewrite Nat.min_l by done. apply take_ge. rewrite length_drop. lia.
    - rewrite Nat.min_r by lia. rewrite !drop_ge by (fold n; lia).
      apply take_nil. }
  unfold py_slice_set. rewrite Hsl, slice_lo_None, slice_hi_neg by lia.
  rewrite Z.opp_involutive. fold n t.
  rewrite decide_True by (rewrite length_drop; fold n; lia).
  cbn [mbind result_bind]. f_equal.
  rewrite Nat.sub_0_r, take_0, app_nil_l, Nat.add_0_l.
  unfold py_slice_fill. rewrite slice_hi_None, slice_lo_neg by lia.
  rewrite Z.opp_involutive, length_app, !length_drop. fold n t.
  replace (n - t + (n - (n - t)) - t)%nat with (n - t)%nat by lia.
  rewrite take_app_length' by (rewrite length_drop; fold n; lia).
  rewrite (drop_ge (_ ++ _)) by (rewrite length_app, !length_drop; fold n; lia).
  rewrite app_nil_r. do 2 f_equal. lia.
Qed.

(** [u[-s:] = u[:s]; u[:-s] = v] for a negative [s] moves the array [-s]
    places to the right. *)
Lemma shift_right_eq u s (v : A) :
  s < 0 →
  (y_filt ← py_slice_set u (Some (- s)) None (py_slice u None (Some s));
   Ok (py_slice_fill y_filt None (Some (- s)) v)) =
  Ok (replicate (Z.to_nat (- s) `min` length u) v
        ++ take (length u - Z.to_nat (- s)) u).
Proof.
  intros Hs. set (n := length u). set (t := Z.to_nat (- s)).
  assert (Hsl : py_slice u None (Some s) = take (n - t) u).
  { unfold py_slice. rewrite slice_lo_None, slice_hi_neg by lia.
    fold n t. by rewrite Nat.sub_0_r, drop_0. }
  unfold py_slice_set. rewrite Hsl, slice_hi_None, slice_lo_pos by lia.
  fold n t.
  rewrite decide_True by (rewrite length_take; fold n; lia).
  cbn [mbind result_bind]. f_equal.
  unfold py_slice_fill. rewrite slice_lo_None, slice_hi_pos by lia.
  rewrite !length_app, !length_take, length_drop. fold n t.
  rewrite take_0, app_nil_l, Nat.sub_0_r, Nat.add_0_l.
  f_equal; [f_equal; lia|].
  match goal with |- drop ?k _ = _ => replace k with (t `min` n)%nat by lia end.
  rewrite drop_app_length' by (rewrite length_take; fold n; lia).
  rewrite drop_ge by (fold n; lia). by rewrite app_nil_r.
Qed.
End realign.

(** ** The fast path: interior of the uniform filter *)

Lemma nan_free_Forall (y : list sample) :
  np_any (isnan <$> y) () = false → Forall (λ s, isnan s = false) y.
Proof.
  unfold np_any. induction y as [|s y IH]; [by constructor|].
  cbn. intros H. apply orb_false_iff in H as [Hs Hy]. constructor; auto.
Qed.

Lemma nan_free_values (l : list sample) :
  Forall (λ s, isnan s = false) l → l = Num <$> finite_values l.
Proof.
  induction 1 as [|s l Hs _ IH]; [done|].
  destruct s as [|q]; [done|]. unfold finite_values in *. csimpl. by f_equal.
Qed.

Lemma finite_values_Num (vs : list Qc) : finite_values (Num <$> vs) = vs.
Proof.
  unfold finite_values. induction vs as [|q vs IH]; [done|].
  csimpl. by rewrite IH.
Qed.

Lemma foldr_sample_add_Num (vs : list Qc) :
  foldr sample_add (Num (Qc_of_Z 0)) (Num <$> vs) = Num (Qc_sum vs).
Proof.
  induction vs as [|q vs IH]; [done|]. csimpl. by rewrite IH.
Qed.

(** On a window without NaN the filter's mean is [np.nanmean]. *)
Lemma window_mean_nanmean (w : list sample) :
  Forall (λ s, isnan s = false) w → w ≠ [] →
  sample_div_Z (foldr sample_add (Num (Qc_of_Z 0)) w) (len w) = nanmean w.
Proof.
  intros Hw Hne. rewrite (nan_free_values w Hw) in *.
  unfold nanmean. rewrite foldr_sample_add_Num, finite_values_Num.
  unfold len. rewrite length_fmap.
  destruct (finite_values w) as [|q vs]; [done|]. done.
Qed.

Lemma reflect_index_inside (n k : Z) : 0 ≤ k < n → reflect_index n k = k.
Proof.
  intros Hk. unfold reflect_index. cbn zeta.
  rewrite Z.mod_small by lia. by rewrite decide_True by lia.
Qed.

(** A window that lies inside the array reads no reflected sample. *)
Lemma uniform_window_inside (y : list sample) (size p : Z) :
  0 ≤ p → 0 ≤ size → p + size ≤ len y →
  (λ k, y !!! Z.to_nat (reflect_index (len y) (p + k))) <$> seqZ 0 size =
    take (Z.to_nat size) (drop (Z.to_nat p) y).
Proof.
  intros Hp Hsize Hle. apply list_eq. intros k.
  rewrite list_lookup_fmap.
  destruct (decide (Z.of_nat k < size)) as [Hk|Hk].
  - rewrite lookup_seqZ_lt by lia. cbn.
    rewrite reflect_index_inside by lia.
    rewrite lookup_take_lt by lia. rewrite lookup_drop.
    replace (Z.to_nat (p + (0 + Z.of_nat k))) with (Z.to_nat p + k)%nat by lia.
    destruct (lookup_lt_is_Some_2 y (Z.to_nat p + k)) as [x Hx];
      [unfold len in Hle; lia|].
    rewrite Hx. f_equal. by apply list_lookup_total_correct.
  - rewrite lookup_seqZ_ge by lia. cbn. symmetry.
    apply lookup_ge_None. rewrite length_take. lia.
Qed.

Lemma reflect_index_range (n k : Z) : 0 < n → 0 ≤ reflect_index n k < n.
Proof.
  intros Hn. unfold reflect_index. cbn zeta.
  pose proof (Z.mod_pos_bound k (2 * n)). case_decide; lia.
Qed.

(** *** The running sum of the filter *)

Lemma length_running_mean (tmp : sample) (updates : list sample) :
  length (running_mean tmp updates) = S (length updates).
Proof.
  revert tmp. induction updates as [|d rest IH]; intros tmp; [done|].
  cbn. by rewrite IH.
Qed.

Lemma uniform_filter1d_length (y u : list sample) (size : Z) :
  uniform_filter1d y size = Ok u → length u = length y.
Proof.
  unfold uniform_filter1d. repeat case_decide; try done.
  - intros [= <-]. unfold len in *. by destruct y.
  - intros [= <-]. rewrite length_running_mean, length_fmap, length_seqZ.
    unfold len in *. lia.
Qed.

Lemma Qc_sum_snoc (l : list Qc) (x : Qc) :
  Qc_sum (l ++ [x]) = (Qc_sum l + x)%Qc.
Proof.
  unfold Qc_sum. induction l as [|q l IH]; cbn.
  - rewrite Z2Qc_inj_0. ring.
  - rewrite IH. ring.
Qed.

(** Moving a window one place to the right drops its first value and takes
    the next one. *)
Lemma Qc_sum_slide (e : Z → Qc) (i size : Z) :
  0 ≤ size →
  (Qc_sum (e <$> seqZ (i + 1)%Z size) + e i =
   Qc_sum (e <$> seqZ i size) + e (i + size)%Z)%Qc.
Proof.
  intros Hsize.
  assert (H1 : seqZ i (size + 1) = i :: seqZ (i + 1) size).
  { rewrite seqZ_cons by lia. do 2 f_equal; lia. }
  assert (H2 : seqZ i (size + 1) = seqZ i size ++ [i + size]).
  { rewrite seqZ_app by lia. f_equal. }
  assert (H : Qc_sum (e <$> (i :: seqZ (i + 1) size)) =
              Qc_sum (e <$> (seqZ i size ++ [i + size]))) by (by rewrite <- H1, H2).
  rewrite fmap_app in H. change (e <$> [i + size]) with [e (i + size)] in H.
  rewrite Qc_sum_snoc in H. rewrite <- H.
  rewrite fmap_cons. unfold Qc_sum. cbn [foldr]. ring.
Qed.

(** In exact arithmetic the running sum holds, at every step, the mean of
    the window it has reached. *)
Lemma running_mean_lookup (e : Z → Qc) (size : Z) (m : nat) :
  0 < size →
  ∀ (i0 : Z) (k : nat), (k ≤ m)%nat →
  running_mean (Num (Qc_sum (e <$> seqZ i0 size) / Qc_of_Z size))
    ((λ i, sample_div_Z
             (sample_sub (Num (e (i + size - 1))) (Num (e (i - 1)))) size)
       <$> seqZ (i0 + 1) (Z.of_nat m)) !! k =
  Some (Num (Qc_sum (e <$> seqZ (i0 + Z.of_nat k) size) / Qc_of_Z size)).
Proof.
  intros Hsize.
  assert (Hne : Qc_of_Z size ≠ Qc_of_Z 0).
  { intros H. apply Z2Qc_inj in H. lia. }
  rewrite Z2Qc_inj_0 in Hne.
  induction m as [|m IH]; intros i0 k Hk.
  - assert (k = 0%nat) as -> by lia.
    change (seqZ (i0 + 1) (Z.of_nat 0)) with (@nil Z).
    change (Z.of_nat 0) with 0. by rewrite Z.add_0_r.
  - rewrite (seqZ_cons (i0 + 1)) by lia. rewrite fmap_cons.
    cbn [running_mean].
    destruct k as [|k];
      [change (Z.of_nat 0) with 0; by rewrite Z.add_0_r|].
    rewrite lookup_cons_ne_0 by done. cbn [Nat.pred].
    replace (Z.pred (Z.of_nat (S m))) with (Z.of_nat m) by lia.
    replace (Z.succ (i0 + 1)) with (i0 + 1 + 1) by lia.
    replace (i0 + Z.of_nat (S k)) with (i0 + 1 + Z.of_nat k) by lia.
    rewrite <- IH by lia. do 2 f_equal. cbn. f_equal.
    replace (i0 + 1 + size - 1) with (i0 + size) by lia.
    replace (i0 + 1 - 1) with i0 by lia.
    pose proof (Qc_sum_slide e i0 size ltac:(lia)) as Hs.
    replace (Qc_sum (e <$> seqZ (i0 + 1) size))
      with (Qc_sum (e <$> seqZ i0 size) + e (i0 + size)%Z - e i0)%Qc
      by (rewrite <- Hs; ring).
    field. done.
Qed.

(** On an array without NaN the running sum gives, at every index, the mean
    of the window of the reflected array. *)
Lemma uniform_filter1d_lookup (y : list sample) (size : Z) (j : nat) :
  Forall (λ s, isnan s = false) y →
  1 ≤ size → size < 2 ^ 63 → (j < length y)%nat →
  ∃ u, uniform_filter1d y size = Ok u ∧ length u = length y ∧
       u !! j =
         Some (sample_div_Z
                 (foldr sample_add (Num (Qc_of_Z 0))
                    ((λ k, y !!! Z.to_nat
                                   (reflect_index (len y)
                                      (Z.of_nat j - size / 2 + k)))
                       <$> seqZ 0 size))
                 size).
Proof.
  intros Hy Hsize Hmax Hj.
  destruct (uniform_filter1d y size) as [u|err] eqn:Hu; last first.
  { unfold uniform_filter1d in Hu. unfold len in Hu.
    repeat case_decide; try done; lia. }
  exists u. split; [done|]. split; [by eapply uniform_filter1d_length|].
  unfold uniform_filter1d in Hu.
  rewrite decide_False, decide_False in Hu by lia.
  rewrite decide_False in Hu by (unfold len; lia).
  injection Hu as <-.
  set (line := λ k : Z, y !!! Z.to_nat (reflect_index (len y) (k - size / 2))).
  set (e := λ k : Z, match line k with Num q => q | NaN => Qc_of_Z 0 end).
  assert (Hline : ∀ k, line k = Num (e k)).
  { intros k. unfold e.
    assert (Hin : line k ∈ y).
    { unfold line. apply list_elem_of_lookup_total_2.
      pose proof (reflect_index_range (len y) (k - size / 2)).
      unfold len in *. lia. }
    rewrite Forall_forall in Hy. specialize (Hy _ Hin).
    by destruct (line k). }
  assert (Hsum : ∀ i, foldr sample_add (Num (Qc_of_Z 0)) (line <$> seqZ i size) =
                      Num (Qc_sum (e <$> seqZ i size))).
  { intros i. rewrite <- foldr_sample_add_Num, <- list_fmap_compose.
    f_equal. apply list_fmap_ext. intros _ k _. apply Hline. }
  change (running_mean
            (sample_div_Z
               (foldr sample_add (Num (Qc_of_Z 0)) (line <$> seqZ 0 size)) size)
            ((λ i, sample_div_Z
                     (sample_sub (line (i + size - 1)) (line (i - 1))) size)
               <$> seqZ 1 (len y - 1)) !! j =
          Some (sample_div_Z
                  (foldr sample_add (Num (Qc_of_Z 0))
                     ((λ k, y !!! Z.to_nat
                                    (reflect_index (len y)
                                       (Z.of_nat j - size / 2 + k)))
                        <$> seqZ 0 size))
                  size)).
  rewrite Hsum. cbn [sample_div_Z].
  rewrite (list_fmap_ext
             (λ i, sample_div_Z (sample_sub (line (i + size - 1)) (line (i - 1))) size)
             (λ i, sample_div_Z
                     (sample_sub (Num (e (i + size - 1))) (Num (e (i - 1)))) size)
             (seqZ 1 (len y - 1)))
    by (intros; by rewrite !Hline).
  replace (len y - 1) with (Z.of_nat (length y - 1)) by (unfold len; lia).
  pose proof (running_mean_lookup e size (length y - 1) ltac:(lia) 0 j ltac:(lia)) as Hl.
  rewrite Z.add_0_l in Hl. rewrite Hl. f_equal.
  replace ((λ k, y !!! Z.to_nat (reflect_index (len y) (Z.of_nat j - size / 2 + k)))
             <$> seqZ 0 size)
    with (line <$> seqZ (Z.of_nat j) size).
  { by rewrite Hsum. }
  replace (seqZ (Z.of_nat j) size) with (seqZ (Z.of_nat j + 0) size)
    by (f_equal; lia).
  rewrite <- (fmap_add_seqZ (Z.of_nat j) 0 size), <- list_fmap_compose.
  apply list_fmap_ext. intros _ k _. unfold line. cbn.
  do 3 f_equal. lia.
Qed.

Lemma uniform_filter1d_inside (y : list sample) (size j : Z) :
  Forall (λ s, isnan s = false) y →
  1 ≤ size → size < 2 ^ 63 → 0 ≤ j - size / 2 → j - size / 2 + size ≤ len y →
  ∃ u, uniform_filter1d y size = Ok u ∧ length u = length y ∧
       u !! Z.to_nat j =
         Some (nanmean (take (Z.to_nat size) (drop (Z.to_nat (j - size / 2)) y))).
Proof.
  intros Hy Hsize Hmax Hlo Hhi.
  assert (0 ≤ size / 2 < size) by (Z.div_mod_to_equations; lia).
  destruct (uniform_filter1d_lookup y size (Z.to_nat j) Hy Hsize Hmax)
    as (u & Hu & Hlen & Hlk); [unfold len in Hhi; lia|].
  exists u. split; [done|]. split; [done|]. rewrite Hlk. f_equal.
  rewrite Z2Nat.id by lia.
  rewrite uniform_window_inside by lia.
  set (w := take _ _).
  assert (Hw : len w = size).
  { unfold w, len. rewrite length_take, length_drop. unfold len in Hhi. lia. }
  rewrite <- Hw at 1. apply window_mean_nanmean.
  - unfold w. apply Forall_take, Forall_drop, Hy.
  - intros Hnil. rewrite Hnil in Hw. unfold len in Hw. simpl in Hw. lia.
Qed.

(** ** The two paths agree *)

Lemma ceil_half_facts (b a : Z) :
  0 ≤ b → 0 ≤ a →
  let s := ceil_half (a - b) in
  (b + a + 1) / 2 = b + s ∧ - b ≤ s ≤ a ∧ (b = 0 → s = 0 → a = 0).
Proof.
  intros Hb Ha. unfold ceil_half. cbn zeta. Z.div_mod_to_equations. lia.
Qed.

Lemma elem_of_py_range_down (a b i : Z) :
  i ∈ py_range a b (-1) ↔ b < i ≤ a.
Proof.
  rewrite py_range_down, list_elem_of_fmap. split.
  - intros (k & -> & Hk). apply elem_of_seqZ in Hk. lia.
  - intros Hi. exists (a - i). split; [lia|]. apply elem_of_seqZ. lia.
Qed.

Lemma elem_of_py_range_up (n i : Z) :
  i ∈ py_range 0 n 1 ↔ 0 ≤ i < n.
Proof. rewrite py_range_up, elem_of_seqZ. lia. Qed.

Lemma Forall_py_range_down_nonneg (a b : Z) :
  0 ≤ b → Forall (λ i, 0 ≤ i) (py_range a b (-1)).
Proof.
  intros Hb. apply Forall_forall. intros i Hi.
  apply elem_of_py_range_down in Hi. lia.
Qed.

(** The two boundary loops: whatever the realigned array [v] holds near the
    edges, the result is the exact windowed mean everywhere, provided [v]
    already holds it at the indices the loops leave alone. *)
Lemma boundary_refix (y v : list sample) (b a : Z) :
  0 ≤ b → 0 ≤ a →
  let s := ceil_half (a - b) in
  length v = length y →
  (∀ k : nat, b + Z.abs s ≤ Z.of_nat k → Z.of_nat k ≤ len y - a - Z.abs s - 1 →
     v !! k = Some (clipped_nanmean y (Z.of_nat k) b a)) →
  foldl (λ y_filt i, setitem y_filt i (clipped_nanmean y i b a))
    (foldl (λ y_filt i, setitem y_filt i (clipped_nanmean y i b a)) v
       (py_range 0 (Z.min (b + Z.abs s) (len y)) 1))
    (py_range (len y - 1) (Z.max 0 (len y - a - Z.abs s - 1)) (-1)) =
  (λ i, clipped_nanmean y i b a) <$> seqZ 0 (len y).
Proof.
  intros Hb Ha s Hlen Hv.
  destruct (ceil_half_facts b a Hb Ha) as (_ & Hs & Hzero). fold s in Hs, Hzero.
  apply list_eq. intros k.
  rewrite (lookup_foldl_setitem (λ i, clipped_nanmean y i b a))
    by (apply Forall_py_range_down_nonneg; lia).
  rewrite length_foldl_setitem.
  rewrite (lookup_foldl_setitem (λ i, clipped_nanmean y i b a))
    by (rewrite py_range_up; apply Forall_seqZ_nonneg).
  rewrite list_lookup_fmap. unfold len in *.
  destruct (decide (k < length y)%nat) as [Hk|Hk].
  - rewrite lookup_seqZ_lt by lia. cbn. rewrite Z.add_0_l.
    repeat case_decide; try done.
    apply Hv.
    + destruct (decide (b + Z.abs s ≤ Z.of_nat k)); [done|].
      exfalso. match goal with H : ¬ (_ ∈ py_range 0 _ 1 ∧ _) |- _ => apply H end.
      split; [apply elem_of_py_range_up; lia|lia].
    + destruct (decide (Z.of_nat k ≤ Z.of_nat (length y) - a - Z.abs s - 1));
        [done|].
      exfalso.
      destruct (decide (Z.of_nat k = 0)) as [Hk0|Hk0].
      * match goal with H : ¬ (_ ∈ py_range 0 _ 1 ∧ _) |- _ => apply H end.
        split; [apply elem_of_py_range_up|lia]. 
        destruct (decide (b = 0)); [|lia].
        destruct (decide (s = 0)); [|lia]. lia.
      * match goal with H : ¬ (_ ∈ py_range _ _ (-1) ∧ _) |- _ => apply H end.
        split; [apply elem_of_py_range_down; lia|lia].
  - rewrite lookup_seqZ_ge by lia. cbn.
    repeat case_decide; try (apply lookup_ge_None; lia); lia.
Qed.

Lemma uniform_filter1d_size (y u : list sample) (size : Z) :
  uniform_filter1d y size = Ok u → 1 ≤ size < 2 ^ 63.
Proof. unfold uniform_filter1d. repeat case_decide; try done; lia. Qed.



(** The interior of that run: the fast path's entries 2, 3 and 4 are the
    filter's entries 3, 4 and 5. *)
Example path_equivalence_interior :
  mov_avg_no_nan [qz 1; qz 2; qz 4; qz 8; qz 16; qz 32; qz 64; qz 128] 1 2 =
    Ok [qfrac 7 3; qfrac 15 4; qfrac 15 2; qz 15; qz 30; qz 60; qfrac 224 3;
        qz 96].
Proof. by_evaluation. Qed.


(** ** The variable-rate engine *)

Lemma nanmean_mean_or_missing (l : list sample) :
  nanmean l = mean_or_missing (finite_values l).
Proof. unfold nanmean, mean_or_missing. by destruct (finite_values l). Qed.

Lemma finite_values_total_lookups (row : list sample) (idxs : list nat) :
  finite_values ((λ j, row !!! j) <$> idxs) = values_at row idxs.
Proof.
  unfold finite_values, values_at. rewrite omap_fmap.
  apply omap_ext_eq. intros j. rewrite list_lookup_total_alt.
  by destruct (row !! j) as [[|q]|].
Qed.

Lemma take_indexes_ok (row : list sample) (idxs : list nat) :
  Forall (λ j, (j < length row)%nat) idxs →
  take_indexes row idxs = Ok ((λ j, row !!! j) <$> idxs).
Proof.
  unfold take_indexes. induction 1 as [|j idxs Hj _ IH]; [done|].
  cbn [foldr]. rewrite IH.
  destruct (lookup_lt_is_Some_2 row j Hj) as [v Hv]. rewrite Hv.
  cbn. by rewrite (list_lookup_total_correct _ _ _ Hv).
Qed.

Section column_loop.
Variables (ys : list (list sample)) (L : nat) (idx : Z → list nat).
Hypothesis Hrect : Forall (λ r, length r = L) ys.
Hypothesis Hidx : ∀ i, Forall (λ j, (j < L)%nat) (idx i).

Lemma nanmean_columns_ok (i : Z) :
  nanmean_columns ys (idx i) = Ok (column_mean idx i <$> ys).
Proof.
  unfold nanmean_columns. revert Hrect. generalize ys.
  induction 1 as [|row rows Hrow _ IH]; [done|].
  cbn [foldr]. rewrite take_indexes_ok by (rewrite Hrow; apply Hidx).
  cbn. rewrite IH. done.
Qed.

Lemma ncols_rect (filt : list (list sample)) :
  filt ≠ [] → Forall (λ r, length r = L) filt → ncols filt = L.
Proof. intros Hne Hf. destruct filt as [|r rs]; [done|]. by inversion Hf. Qed.

Lemma zip_with_setitem_fuse {B} (h : list sample → list sample → B) (i : Z)
    (filt rows : list (list sample)) :
  zip_with h (zip_with (λ row v, setitem row i v) filt (column_mean idx i <$> rows)) rows =
    zip_with (λ f y, h (setitem f i (column_mean idx i y)) y) filt rows.
Proof.
  revert rows. induction filt as [|f filt IH]; intros [|y rows]; try done.
  cbn. by rewrite IH.
Qed.

Lemma column_loop_rows (idxs : list Z) (filt : list (list sample)) :
  Forall (λ i, 0 ≤ i < Z.of_nat L) idxs →
  filt ≠ [] → length filt = length ys → Forall (λ r, length r = L) filt →
  for_each (λ i arrayYarrays_filt,
              vals ← nanmean_columns ys (idx i);
              set_column arrayYarrays_filt i vals) idxs filt =
    Ok (zip_with (λ f y, foldl (λ acc i, setitem acc i (column_mean idx i y)) f idxs) filt ys).
Proof.
  intros Hidxs. revert filt.
  induction Hidxs as [|i idxs Hi _ IH]; intros filt Hne Hlen Hf.
  - cbn. f_equal. clear Hne Hf. revert Hlen. generalize ys.
    induction filt as [|f filt IHf]; intros [|y rows] Hlen; try done.
    cbn. f_equal. apply IHf. by injection Hlen.
  - cbn [for_each]. rewrite nanmean_columns_ok. cbn [mbind result_bind].
    unfold set_column. rewrite (ncols_rect filt Hne Hf).
    rewrite decide_True by lia. cbn [mbind result_bind].
    rewrite IH.
    + by rewrite zip_with_setitem_fuse.
    + destruct filt as [|f filt]; [done|]. destruct ys; done.
    + rewrite length_zip_with, length_fmap. lia.
    + apply Forall_forall. intros r Hr.
      apply elem_of_lookup_zip_with in Hr as (k & f & v & -> & Hfk & _).
      unfold setitem. rewrite length_insert.
      eapply Forall_lookup_1 in Hf; eauto.
Qed.

Lemma column_loop_all :
  ys ≠ [] →
  for_each (λ i arrayYarrays_filt,
              vals ← nanmean_columns ys (idx i);
              set_column arrayYarrays_filt i vals)
           (py_range 0 (Z.of_nat L) 1) ys =
    Ok ((λ y, (λ i, column_mean idx i y) <$> seqZ 0 (Z.of_nat L)) <$> ys).
Proof.
  intros Hne. rewrite py_range_up, column_loop_rows; try done.
  - f_equal. clear Hne. revert Hrect. generalize ys.
    induction 1 as [|y rows Hy _ IH]; [done|].
    cbn. rewrite IH. f_equal.
    rewrite <- Hy. apply (foldl_setitem_all (λ i, column_mean idx i y)).
  - apply Forall_forall. intros i Hi. apply elem_of_seqZ in Hi. lia.
Qed.
End column_loop.

Lemma length_mask_nan (mask : sample → bool) (w : list sample) :
  length (mask_nan mask w) = length w.
Proof. unfold mask_nan. apply length_fmap. Qed.

Lemma argwhere_not_nan_lt (w : list sample) :
  Forall (λ j, (j < length w)%nat) (argwhere_not_nan w).
Proof.
  apply Forall_forall. intros j Hj. unfold argwhere_not_nan in Hj.
  apply list_elem_of_filter in Hj as [_ Hj]. apply elem_of_seq in Hj. lia.
Qed.

(** The two maskings keep exactly the timestamps of the window. *)
Lemma masked_window_indexes (xs : list Qc) (t before after : Qc) :
  argwhere_not_nan
    (mask_nan (λ v, sample_gt v (sample_add (Num t) (Num after)))
       (mask_nan (λ v, sample_lt v (sample_sub (Num t) (Num before)))
          (Num <$> xs))) =
  time_window xs t before after.
Proof.
  unfold argwhere_not_nan, time_window.
  rewrite !length_mask_nan, length_fmap.
  apply list_filter_iff. intros j. unfold within_window, mask_nan.
  rewrite list_lookup_total_alt, !list_lookup_fmap.
  destruct (xs !! j) as [xj|]; cbn; [|split; [done|tauto]].
  destruct (bool_decide (xj < t - before)%Qc) eqn:Hlt; cbn.
  - apply bool_decide_eq_true in Hlt. split; [done|].
    intros [Hle _]. exfalso. by apply Qcle_not_lt in Hle.
  - apply bool_decide_eq_false in Hlt. apply Qcnot_lt_le in Hlt.
    destruct (bool_decide (t + after < xj)%Qc) eqn:Hgt; cbn.
    + apply bool_decide_eq_true in Hgt. split; [done|].
      intros [_ Hle]. exfalso. by apply Qcle_not_lt in Hle.
    + apply bool_decide_eq_false in Hgt. apply Qcnot_lt_le in Hgt. done.
Qed.

Lemma elem_of_time_window (xs : list Qc) (t before after : Qc) (j : nat) :
  j ∈ time_window xs t before after ↔
  ∃ xj, xs !! j = Some xj ∧ (t - before ≤ xj)%Qc ∧ (xj ≤ t + after)%Qc.
Proof.
  unfold time_window. rewrite list_elem_of_filter, elem_of_seq.
  unfold within_window. split.
  - intros [H _]. destruct (xs !! j) as [xj|]; [eauto|done].
  - intros (xj & Hj & H). rewrite Hj. split; [done|].
    apply lookup_lt_Some in Hj. lia.
Qed.

Lemma values_at_all_missing (row : list sample) (idxs : list nat) :
  (∀ j, j ∈ idxs → row !! j = Some NaN) → values_at row idxs = [].
Proof.
  unfold values_at. induction idxs as [|j idxs IH]; intros Hall; [done|].
  csimpl. rewrite (Hall j) by left. csimpl. apply IH.
  intros j' Hj'. apply Hall. by right.
Qed.

Lemma Qc_nonneg_not_sentinel (q : Qc) : (0 ≤ q)%Qc → q ≠ Qc_of_Z (-1).
Proof. intros Hq ->. by apply Qcle_not_lt in Hq. Qed.

(** The rows computed by the loop of [mov_avg_time_variable_freq], for each
    row the window means along the timestamps. *)
Lemma variable_rate_rows (xs : list Qc) (ys : list (list sample))
    (before after : Qc) :
  ys ≠ [] → Forall (λ row, length row = length xs) ys →
  for_each (λ i arrayYarrays_filt,
              let this_moment := (Num <$> xs) !!! Z.to_nat i in
              let timing_window := Num <$> xs in
              let timing_window :=
                mask_nan (λ t, sample_lt t (sample_sub this_moment (Num before)))
                         timing_window in
              let timing_window :=
                mask_nan (λ t, sample_gt t (sample_add this_moment (Num after)))
                         timing_window in
              let indexes := argwhere_not_nan timing_window in
              vals ← nanmean_columns ys indexes;
              set_column arrayYarrays_filt i vals)
           (py_range 0 (len (Num <$> xs)) 1) ys =
  Ok ((λ row, time_window_means xs row before after) <$> ys).
Proof.
  intros Hne Hrect. cbv zeta.
  set (idx := λ i : Z,
         argwhere_not_nan
           (mask_nan (λ v, sample_gt v (sample_add ((Num <$> xs) !!! Z.to_nat i) (Num after)))
              (mask_nan (λ v, sample_lt v (sample_sub ((Num <$> xs) !!! Z.to_nat i) (Num before)))
                 (Num <$> xs)))).
  assert (Hidx : ∀ i, Forall (λ j, (j < length xs)%nat) (idx i)).
  { intros i. unfold idx.
    eapply Forall_impl; [apply argwhere_not_nan_lt|].
    intros j. cbn. by rewrite !length_mask_nan, length_fmap. }
  unfold len. rewrite length_fmap.
  pose proof (column_loop_all ys (length xs) idx Hrect Hidx Hne) as Hloop.
  unfold idx in Hloop at 1. rewrite Hloop. clear Hloop. f_equal.
  apply list_fmap_ext. intros _ row _.
  unfold time_window_means. apply list_eq. intros i.
  rewrite !list_lookup_fmap.
  destruct (xs !! i) as [t|] eqn:Hi.
  - assert (Hi' := lookup_lt_Some _ _ _ Hi).
    rewrite lookup_seqZ_lt by lia. cbn. f_equal.
    unfold column_mean.
    rewrite nanmean_mean_or_missing, finite_values_total_lookups.
    unfold idx. rewrite Z.add_0_l, Nat2Z.id.
    rewrite (list_lookup_total_correct (Num <$> xs) i (Num t))
      by (by rewrite list_lookup_fmap, Hi).
    by rewrite masked_window_indexes.
  - apply lookup_ge_None in Hi. by rewrite lookup_seqZ_ge by lia.
Qed.

(** A non-empty batch comes back as a batch. *)
Lemma variable_rate_batch_eq (xs : list Qc) (ys : list (list sample))
    (before after : Qc) :
  ys ≠ [] → Forall (λ row, length row = length xs) ys →
  mov_avg_time_variable_freq (Num <$> xs) (Batch ys) before after =
    Ok (Arr2 ((λ row, time_window_means xs row before
                        (if decide (after = Qc_of_Z (-1)) then before else after))
                <$> ys)).
Proof.
  intros Hne Hrect. unfold mov_avg_time_variable_freq.
  destruct ys as [|y0 rows] eqn:Hys; [done|]. rewrite <- Hys in *.
  replace (containsScalars (Batch ys)) with (Ok false : result bool)
    by (by rewrite Hys).
  cbn [mbind result_bind].
  assert (Hcols : ncols ys = length xs).
  { rewrite Hys in *. by inversion Hrect. }
  unfold np_array_float.
  rewrite (decide_True (P := Forall _ ys)) by (by rewrite Hcols).
  cbn [mbind result_bind].
  by rewrite (variable_rate_rows xs ys before _ Hne Hrect).
Qed.

(** A non-empty series comes back squeezed. *)
Lemma variable_rate_series_eq (xs : list Qc) (y : list sample)
    (before after : Qc) :
  y ≠ [] → length y = length xs →
  mov_avg_time_variable_freq (Num <$> xs) (Series y) before after =
    Ok (np_squeeze
          [time_window_means xs y before
             (if decide (after = Qc_of_Z (-1)) then before else after)]).
Proof.
  intros Hne Hlen. unfold mov_avg_time_variable_freq.
  destruct y as [|v y'] eqn:Hy; [done|]. rewrite <- Hy in *.
  replace (containsScalars (Series y)) with (Ok true : result bool)
    by (by rewrite Hy).
  cbn [mbind result_bind add_dimension].
  unfold np_array_float.
  rewrite (decide_True (P := Forall _ [y])) by (by repeat constructor).
  cbn [mbind result_bind].
  rewrite (variable_rate_rows xs [y] before _) by (by repeat constructor).
  done.
Qed.

Lemma length_time_window_means (xs : list Qc) (row : list sample)
    (before after : Qc) :
  length (time_window_means xs row before after) = length xs.
Proof. unfold time_window_means. apply length_fmap. Qed.

(** A series of two samples or more keeps its shape. *)
Lemma variable_rate_series_shape (xs : list Qc) (y : list sample)
    (before after : Qc) :
  (2 ≤ length y)%nat → length y = length xs →
  ∃ out, mov_avg_time_variable_freq (Num <$> xs) (Series y) before after =
           Ok (Arr1 out) ∧ length out = length y.
Proof.
  intros Hge Hlen.
  rewrite variable_rate_series_eq; [|intros ->; cbn in Hge; lia|done].
  set (row := time_window_means _ _ _ _).
  assert (Hrow : length row = length xs) by apply length_time_window_means.
  exists row. split; [|lia].
  destruct row as [|a [|b row']]; cbn in Hrow; try lia. done.
Qed.

(** A series of one sample comes back as a rank-0 array. *)
Lemma variable_rate_series_one (t : Qc) (v : sample) (before after : Qc) :
  ∃ w, mov_avg_time_variable_freq [Num t] (Series [v]) before after =
         Ok (Arr0 w).
Proof.
  rewrite (variable_rate_series_eq [t] [v]) by done.
  unfold time_window_means. cbn. eauto.
Qed.

(** *** The engine with rounded window bounds *)

(** The two maskings keep exactly the timestamps between the rounded
    bounds. *)
Lemma masked_window_indexes_fl (fl : Qc → Qc) (xs : list Qc) (t before after : Qc) :
  argwhere_not_nan
    (mask_nan (λ v, sample_gt v (sample_round fl (sample_add (Num t) (Num after))))
       (mask_nan (λ v, sample_lt v (sample_round fl (sample_sub (Num t) (Num before))))
          (Num <$> xs))) =
  time_window_fl fl xs t before after.
Proof.
  unfold argwhere_not_nan, time_window_fl.
  rewrite !length_mask_nan, length_fmap.
  apply list_filter_iff. intros j. unfold within_window_fl, mask_nan.
  rewrite list_lookup_total_alt, !list_lookup_fmap.
  destruct (xs !! j) as [xj|]; cbn; [|split; [done|tauto]].
  destruct (bool_decide (xj < fl (t - before))%Qc) eqn:Hlt; cbn.
  - apply bool_decide_eq_true in Hlt. split; [done|].
    intros [Hle _]. exfalso. by apply Qcle_not_lt in Hle.
  - apply bool_decide_eq_false in Hlt. apply Qcnot_lt_le in Hlt.
    destruct (bool_decide (fl (t + after) < xj)%Qc) eqn:Hgt; cbn.
    + apply bool_decide_eq_true in Hgt. split; [done|].
      intros [_ Hle]. exfalso. by apply Qcle_not_lt in Hle.
    + apply bool_decide_eq_false in Hgt. apply Qcnot_lt_le in Hgt. done.
Qed.

Lemma elem_of_time_window_fl (fl : Qc → Qc) (xs : list Qc) (t before after : Qc)
    (j : nat) :
  j ∈ time_window_fl fl xs t before after ↔
  ∃ xj, xs !! j = Some xj ∧ (fl (t - before) ≤ xj)%Qc ∧ (xj ≤ fl (t + after))%Qc.
Proof.
  unfold time_window_fl. rewrite list_elem_of_filter, elem_of_seq.
  unfold within_window_fl. split.
  - intros [H _]. destruct (xs !! j) as [xj|]; [eauto|done].
  - intros (xj & Hj & H). rewrite Hj. split; [done|].
    apply lookup_lt_Some in Hj. lia.
Qed.

Lemma variable_rate_rows_fl (fl : Qc → Qc) (xs : list Qc)
    (ys : list (list sample)) (before after : Qc) :
  ys ≠ [] → Forall (λ row, length row = length xs) ys →
  for_each (λ i arrayYarrays_filt,
              let this_moment := (Num <$> xs) !!! Z.to_nat i in
              let timing_window := Num <$> xs in
              let timing_window :=
                mask_nan (λ t, sample_lt t
                                 (sample_round fl
                                    (sample_sub this_moment (Num before))))
                         timing_window in
              let timing_window :=
                mask_nan (λ t, sample_gt t
                                 (sample_round fl
                                    (sample_add this_moment (Num after))))
                         timing_window in
              let indexes := argwhere_not_nan timing_window in
              vals ← nanmean_columns ys indexes;
              set_column arrayYarrays_filt i vals)
           (py_range 0 (len (Num <$> xs)) 1) ys =
  Ok ((λ row, time_window_means_fl fl xs row before after) <$> ys).
Proof.
  intros Hne Hrect. cbv zeta.
  set (idx := λ i : Z,
         argwhere_not_nan
           (mask_nan (λ v, sample_gt v
                             (sample_round fl
                                (sample_add ((Num <$> xs) !!! Z.to_nat i) (Num after))))
              (mask_nan (λ v, sample_lt v
                                (sample_round fl
                                   (sample_sub ((Num <$> xs) !!! Z.to_nat i)
                                      (Num before))))
                 (Num <$> xs)))).
  assert (Hidx : ∀ i, Forall (λ j, (j < length xs)%nat) (idx i)).
  { intros i. unfold idx.
    eapply Forall_impl; [apply argwhere_not_nan_lt|].
    intros j. cbn. by rewrite !length_mask_nan, length_fmap. }
  unfold len. rewrite length_fmap.
  pose proof (column_loop_all ys (length xs) idx Hrect Hidx Hne) as Hloop.
  unfold idx in Hloop at 1. rewrite Hloop. clear Hloop. f_equal.
  apply list_fmap_ext. intros _ row _.
  unfold time_window_means_fl. apply list_eq. intros i.
  rewrite !list_lookup_fmap.
  destruct (xs !! i) as [t|] eqn:Hi.
  - assert (Hi' := lookup_lt_Some _ _ _ Hi).
    rewrite lookup_seqZ_lt by lia. cbn. f_equal.
    unfold column_mean.
    rewrite nanmean_mean_or_missing, finite_values_total_lookups.
    unfold idx. rewrite Z.add_0_l, Nat2Z.id.
    rewrite (list_lookup_total_correct (Num <$> xs) i (Num t))
      by (by rewrite list_lookup_fmap, Hi).
    by rewrite masked_window_indexes_fl.
  - apply lookup_ge_None in Hi. by rewrite lookup_seqZ_ge by lia.
Qed.

Lemma variable_rate_batch_fl_eq (fl : Qc → Qc) (xs : list Qc)
    (ys : list (list sample)) (before after : Qc) :
  ys ≠ [] → Forall (λ row, length row = length xs) ys →
  mov_avg_time_variable_freq_fl fl (Num <$> xs) (Batch ys) before after =
    Ok (Arr2 ((λ row, time_window_means_fl fl xs row before
                        (if decide (after = Qc_of_Z (-1)) then before else after))
                <$> ys)).
Proof.
  intros Hne Hrect. unfold mov_avg_time_variable_freq_fl.
  destruct ys as [|y0 rows] eqn:Hys; [done|]. rewrite <- Hys in *.
  replace (containsScalars (Batch ys)) with (Ok false : result bool)
    by (by rewrite Hys).
  cbn [mbind result_bind].
  assert (Hcols : ncols ys = length xs).
  { rewrite Hys in *. by inversion Hrect. }
  unfold np_array_float.
  rewrite (decide_True (P := Forall _ ys)) by (by rewrite Hcols).
  cbn [mbind result_bind].
  by rewrite (variable_rate_rows_fl fl xs ys before _ Hne Hrect).
Qed.

Lemma variable_rate_series_fl_eq (fl : Qc → Qc) (xs : list Qc) (y : list sample)
    (before after : Qc) :
  y ≠ [] → length y = length xs →
  mov_avg_time_variable_freq_fl fl (Num <$> xs) (Series y) before after =
    Ok (np_squeeze
          [time_window_means_fl fl xs y before
             (if decide (after = Qc_of_Z (-1)) then before else after)]).
Proof.
  intros Hne Hlen. unfold mov_avg_time_variable_freq_fl.
  destruct y as [|v y'] eqn:Hy; [done|]. rewrite <- Hy in *.
  replace (containsScalars (Series y)) with (Ok true : result bool)
    by (by rewrite Hy).
  cbn [mbind result_bind add_dimension].
  unfold np_array_float.
  rewrite (decide_True (P := Forall _ [y])) by (by repeat constructor).
  cbn [mbind result_bind].
  rewrite (variable_rate_rows_fl fl xs [y] before _) by (by repeat constructor).
  done.
Qed.

Lemma length_time_window_means_fl (fl : Qc → Qc) (xs : list Qc)
    (row : list sample) (before after : Qc) :
  length (time_window_means_fl fl xs row before after) = length xs.
Proof. unfold time_window_means_fl. apply length_fmap. Qed.

(** Without rounding the engine is [mov_avg_time_variable_freq]. *)
Lemma for_each_ext {S : Type} (f g : Z → S → result S) (idxs : list Z) (s : S) :
  (∀ i s, f i s = g i s) → for_each f idxs s = for_each g idxs s.
Proof.
  intros Hfg. revert s. induction idxs as [|i idxs IH]; intros s; [done|].
  cbn [for_each]. rewrite Hfg. destruct (g i s); cbn [mbind result_bind]; auto.
Qed.

Lemma mask_nan_ext (f g : sample → bool) (w : list sample) :
  (∀ t, f t = g t) → mask_nan f w = mask_nan g w.
Proof.
  intros Hfg. unfold mask_nan. apply list_fmap_ext. intros _ t _.
  by rewrite Hfg.
Qed.

Lemma sample_round_exact (s : sample) : sample_round (λ q, q) s = s.
Proof. by destruct s. Qed.

Lemma variable_freq_fl_exact (x : list sample) (arg : series_arg)
    (before after : Qc) :
  mov_avg_time_variable_freq_fl (λ q, q) x arg before after =
    mov_avg_time_variable_freq x arg before after.
Proof.
  unfold mov_avg_time_variable_freq_fl, mov_avg_time_variable_freq.
  destruct (containsScalars arg) as [c|e]; [|done]. cbn [mbind result_bind].
  destruct c; (destruct (np_array_float _) as [a|e]; [|done]);
    cbn [mbind result_bind];
    (erewrite for_each_ext; [reflexivity|]);
    intros i s; cbv zeta; rewrite !sample_round_exact; reflexivity.
Qed.

(** C4, as the code has it: for timestamps [xs], a non-empty batch of series
    of the length of [xs] and non-negative durations, the engine returns a
    batch of as many series of that length; entry [i] of a series is the
    mean of its non-missing samples at the indices [j] with
    [fl (x[i] - before) <= x[j] <= fl (x[i] + after)], where [fl] is the
    rounding of the difference and of the sum of two doubles, and the
    missing marker when there is none.  This holds whatever the rounding
    is; with the rounding to the nearest double, on [x = [0,1,2,10,11]],
    [y = [1,2,3,4,5]] and window [(1, 1)] the output is
    [[1.5, 2, 2.5, 4.5, 4.5]]. *)
Theorem variable_rate_window (fl : Qc → Qc) (xs : list Qc)
    (ys : list (list sample)) (before after : Qc) :
  ys ≠ [] → Forall (λ row, length row = length xs) ys →
  (0 ≤ before)%Qc → (0 ≤ after)%Qc →
  (∃ out,
     mov_avg_time_variable_freq_fl fl (Num <$> xs) (Batch ys) before after =
       Ok (Arr2 out) ∧
     length out = length ys ∧
     ∀ (r i : nat) (row : list sample) (t : Qc),
       ys !! r = Some row → xs !! i = Some t →
       ∃ orow, out !! r = Some orow ∧ length orow = length row ∧
         orow !! i =
           Some (mean_or_missing
                   (values_at row (time_window_fl fl xs t before after))) ∧
         ((∀ j, j ∈ time_window_fl fl xs t before after → row !! j = Some NaN) →
          orow !! i = Some NaN))
  ∧ mov_avg_time_variable_freq_fl round_double
      [qz 0; qz 1; qz 2; qz 10; qz 11]
      (Series [qz 1; qz 2; qz 3; qz 4; qz 5]) (Qc_of_Z 1) (Qc_of_Z 1) =
    Ok (Arr1 [qfrac 3 2; qz 2; qfrac 5 2; qfrac 9 2; qfrac 9 2]).
Proof.
  intros Hne Hrect Hb Ha. split; [|by_evaluation].
  rewrite variable_rate_batch_fl_eq by done.
  rewrite decide_False by by apply Qc_nonneg_not_sentinel.
  eexists. split; [done|]. split; [by rewrite length_fmap|].
  intros r i row t Hr Hi.
  rewrite list_lookup_fmap, Hr. cbn. eexists. split; [done|].
  split.
  { rewrite length_time_window_means_fl. symmetry.
    eapply Forall_lookup_1 in Hrect; eauto. }
  assert (Hval : time_window_means_fl fl xs row before after !! i =
                 Some (mean_or_missing
                         (values_at row (time_window_fl fl xs t before after)))).
  { unfold time_window_means_fl. by rewrite list_lookup_fmap, Hi. }
  split; [done|].
  intros Hall. rewrite Hval. by rewrite values_at_all_missing.
Qed.

Lemma variable_rate_window_witness :
  [[qz 1; qz 2; qz 3]; [qz 4; NaN; NaN]] ≠ [] ∧
  Forall (λ row, length row = length [Qc_of_Z 0; Qc_of_Z 1; Qc_of_Z 5])
         [[qz 1; qz 2; qz 3]; [qz 4; NaN; NaN]] ∧
  (0 ≤ Qc_of_Z 1)%Qc ∧ (0 ≤ Qc_of_Z 2)%Qc ∧
  ∃ out,
    mov_avg_time_variable_freq_fl round_double
      (Num <$> [Qc_of_Z 0; Qc_of_Z 1; Qc_of_Z 5])
      (Batch [[qz 1; qz 2; qz 3]; [qz 4; NaN; NaN]]) (Qc_of_Z 1) (Qc_of_Z 2) =
      Ok (Arr2 out) ∧
    length out = 2%nat.
Proof.
  assert (H1 : [[qz 1; qz 2; qz 3]; [qz 4; NaN; NaN]] ≠ []) by discriminate.
  assert (H2 : Forall (λ row, length row = length [Qc_of_Z 0; Qc_of_Z 1; Qc_of_Z 5])
                 [[qz 1; qz 2; qz 3]; [qz 4; NaN; NaN]]).
  { repeat constructor. }
  assert (H3 : (0 ≤ Qc_of_Z 1)%Qc) by discriminate.
  assert (H4 : (0 ≤ Qc_of_Z 2)%Qc) by discriminate.
  do 4 (split; [assumption|]).
  destruct (variable_rate_window round_double _ _ _ _ H1 H2 H3 H4)
    as [(out & Hout & Hlen & _) _].
  exists out. split; [exact Hout|exact Hlen].
Defined.

(** C4 as stated fails where a timestamp sits on a window edge.  The
    timestamps are the doubles [0, 0.1, 0.2, 0.30000000000000004, 0.4, 0.5]
    and both durations the double [0.1].  At entry 2 the sum [0.2 + 0.1] of
    doubles is below [x[3]], so the stated index set is [{1, 2}], of mean 3;
    the program compares with the rounded sum, which is [x[3]], and returns
    the mean 14/3 over [{1, 2, 3}]. *)
Lemma variable_rate_window_edge_rounding :
  Forall (λ q, round_double q = q) (double_tenth :: grid_x) ∧
  grid_x !! 2%nat = Some (Q2Qc (2 # 1) * double_tenth)%Qc ∧
  time_window grid_x (Q2Qc (2 # 1) * double_tenth) double_tenth double_tenth =
    [1%nat; 2%nat] ∧
  mean_or_missing
    (values_at grid_y
       (time_window grid_x (Q2Qc (2 # 1) * double_tenth) double_tenth double_tenth))
    = qz 3 ∧
  mov_avg_time_variable_freq_fl round_double (Num <$> grid_x) (Series grid_y)
      double_tenth double_tenth =
    Ok (Arr1 [qfrac 3 2; qfrac 7 3; qfrac 14 3; qz 12; qfrac 56 3; qz 24]) ∧
  qfrac 14 3 ≠ qz 3.
Proof. repeat split; by_evaluation. Qed.

(** ** Lengths and shapes of the outputs *)

Lemma mov_avg_no_nan_length (y out : list sample) (b a : Z) :
  mov_avg_no_nan y b a = Ok out → length out = length y.
Proof.
  unfold mov_avg_no_nan.
  set (a' := if decide (a = -1) then b else a).
  set (s := ceil_half (a' - b)).
  destruct (uniform_filter1d y (b + a' + 1)) as [u|e] eqn:Hfilt; [|done].
  cbn [mbind result_bind].
  assert (Hu : length u = length y) by (by eapply uniform_filter1d_length).
  destruct (decide (s > 0)) as [Hpos|Hnpos].
  - rewrite shift_left_eq by lia. cbn [mbind result_bind].
    rewrite decide_False by lia. cbn [mbind result_bind].
    intros [= <-]. rewrite !length_foldl_setitem.
    rewrite length_app, length_drop, length_replicate. lia.
  - cbn [mbind result_bind]. destruct (decide (s < 0)) as [Hneg|Hnneg].
    + rewrite shift_right_eq by lia. cbn [mbind result_bind].
      intros [= <-]. rewrite !length_foldl_setitem.
      rewrite length_app, length_take, length_replicate. lia.
    + cbn [mbind result_bind]. intros [= <-].
      by rewrite !length_foldl_setitem.
Qed.

Lemma mov_avg_length (y out : list sample) (b a : Z) :
  mov_avg y b a = Ok out → length out = length y.
Proof. rewrite mov_avg_always_exact_symmetric. apply mov_avg_loop_length. Qed.

Lemma mov_avg_time_length (y out : list sample) (freq before after : Qc) :
  mov_avg_time y freq before after = Ok out → length out = length y.
Proof.
  unfold mov_avg_time.
  destruct (int_of_double (double_mul before freq)) as [sb|e]; [|done].
  cbn [mbind result_bind].
  destruct (if decide (after ≠ Qc_of_Z (-1)) then _ else _) as [sa|e]; [|done].
  cbn [mbind result_bind].
  destruct (mov_avg y sb sa) as [o|e] eqn:Hm; [|done].
  cbn. intros [= <-]. by apply mov_avg_length in Hm.
Qed.

Lemma variable_rate_batch_lengths (xs : list Qc) (ys : list (list sample))
    (before after : Qc) :
  ys ≠ [] → Forall (λ row, length row = length xs) ys →
  ∃ out, mov_avg_time_variable_freq (Num <$> xs) (Batch ys) before after =
           Ok (Arr2 out) ∧
         length out = length ys ∧
         Forall2 (λ orow row, length orow = length row) out ys ∧
         shape (Arr2 out) = arg_shape (Batch ys).
Proof.
  intros Hne Hrect. rewrite variable_rate_batch_eq by done.
  eexists. split; [done|]. split; [by rewrite length_fmap|].
  assert (HF : Forall2 (λ orow row, length orow = length row)
            ((λ row, time_window_means xs row before
                       (if decide (after = Qc_of_Z (-1)) then before else after))
               <$> ys) ys).
  { apply Forall2_fmap_l, Forall_Forall2_diag.
    eapply Forall_impl; [exact Hrect|].
    intros row Hrow. cbn. by rewrite length_time_window_means. }
  split; [done|].
  cbn. rewrite length_fmap. f_equal.
  destruct ys as [|y0 rows]; [done|]. cbn.
  inversion Hrect; subst. rewrite length_time_window_means. by f_equal.
Qed.

(** C6: length preservation fails for the variable-rate engine on a series
    of one sample: the call returns, and what it returns is a rank-0 array,
    which has no length, where the input has length 1. *)
Theorem variable_rate_single_sample_no_length :
  let x := [qz 2] in
  let y := [qz 7] in
  length y = length x ∧ length y = 1%nat ∧
  mov_avg_time_variable_freq x (Series y) (Q2Qc (1 # 2)) (Q2Qc (1 # 2)) =
    Ok (Arr0 (qz 7)) ∧
  array_len (Arr0 (qz 7)) = None.
Proof. repeat split; by_evaluation. Qed.

(** C7: rank preservation fails on a series of one sample: the shape of the
    argument is [(1,)] and the shape of the result is [()]. *)
Theorem variable_rate_single_sample_rank :
  let x := [qz 0] in
  let y := [qz 5] in
  mov_avg_time_variable_freq x (Series y) (Qc_of_Z 1) (Qc_of_Z (-1)) =
    Ok (Arr0 (qz 5)) ∧
  arg_shape (Series y) = [1%nat] ∧
  shape (Arr0 (qz 5)) = [] ∧
  shape (Arr0 (qz 5)) ≠ arg_shape (Series y).
Proof. repeat split; by_evaluation. Qed.

(** ** The caller's arrays are left alone *)

Section store.
Implicit Types (h : heap) (l : loc).

Lemma fresh_lookup_None h : h !! fresh (dom h) = None.
Proof. apply not_elem_of_dom, is_fresh. Qed.

Lemma load1_at h l (y : list sample) :
  h !! l = Some (Arr1 y) → load1 l h = (Ok y, h).
Proof. intros Hl. unfold load1, st_bind, load, lift. by rewrite Hl. Qed.

Lemma load2_at h l (a : list (list sample)) :
  h !! l = Some (Arr2 a) → load2 l h = (Ok a, h).
Proof. intros Hl. unfold load2, st_bind, load, lift. by rewrite Hl. Qed.

Lemma load1_insert_eq h l (c : list sample) :
  load1 l (<[l := Arr1 c]> h) = (Ok c, <[l := Arr1 c]> h).
Proof. apply load1_at, lookup_insert_eq. Qed.

Lemma load1_insert_ne h l l' (c : ndarray) (y : list sample) :
  l ≠ l' → h !! l' = Some (Arr1 y) →
  load1 l' (<[l := c]> h) = (Ok y, <[l := c]> h).
Proof. intros Hne Hl. apply load1_at. by rewrite lookup_insert_ne. Qed.

Lemma store_insert h l (c c' : ndarray) :
  store l c' (<[l := c]> h) = (Ok tt, <[l := c']> h).
Proof. unfold store. by rewrite insert_insert_eq. Qed.

Lemma returns_fresh_insert h l (out : ndarray) :
  h !! l = None → returns_fresh h (Ok out) (Ok l, <[l := out]> h).
Proof.
  intros Hl. split; [by apply insert_subseteq|].
  exists l. cbn. by rewrite lookup_insert_eq.
Qed.

Lemma returns_fresh_raise h h' (e : exn) :
  h ⊆ h' → returns_fresh h (Raise e) (Raise e, h').
Proof. by split. Qed.

(** A loop of item assignments writes the cell of [y_filt] only, and reads
    [y] as the caller left it. *)
Lemma refix_loop h (ly lf : loc) (y f : list sample) (b a : Z) (idxs : list Z) :
  lf ≠ ly → h !! ly = Some (Arr1 y) →
  for_each_st (refix_item ly lf b a) idxs (<[lf := Arr1 f]> h) =
    (Ok tt,
     <[lf := Arr1 (foldl (λ acc i, setitem acc i (clipped_nanmean y i b a)) f idxs)]> h).
Proof.
  intros Hne Hy. revert f. induction idxs as [|i idxs IH]; intros f; [done|].
  cbn [for_each_st foldl]. unfold st_bind at 1. unfold refix_item at 1.
  unfold st_bind at 1. rewrite (load1_insert_ne _ _ _ _ y) by done.
  unfold st_bind at 1. rewrite load1_insert_eq, store_insert. apply IH.
Qed.

Lemma mov_avg_loop_st_spec h ly (y : list sample) (b a : Z) :
  h !! ly = Some (Arr1 y) →
  returns_fresh h (result_map Arr1 (mov_avg_loop y b a)) (mov_avg_loop_st ly b a h).
Proof.
  intros Hy. unfold mov_avg_loop_st, mov_avg_loop.
  assert (Hfresh := fresh_lookup_None h).
  set (lf := fresh (dom h)) in *.
  assert (Hne : lf ≠ ly) by (intros ->; congruence).
  unfold st_bind at 1. rewrite (load1_at _ _ y) by done.
  unfold st_bind at 1. unfold alloc. fold lf.
  unfold st_bind at 1. rewrite (refix_loop h ly lf y) by done.
  cbn. by apply returns_fresh_insert.
Qed.

Lemma mov_avg_no_nan_st_spec h ly (y : list sample) (b a : Z) :
  h !! ly = Some (Arr1 y) →
  returns_fresh h (result_map Arr1 (mov_avg_no_nan y b a))
    (mov_avg_no_nan_st ly b a h).
Proof.
  intros Hy. unfold mov_avg_no_nan_st, mov_avg_no_nan.
  assert (Hfresh := fresh_lookup_None h).
  set (lf := fresh (dom h)) in *.
  assert (Hne : lf ≠ ly) by (intros ->; congruence).
  set (a' := if decide (a = -1) then b else a).
  set (s := ceil_half (a' - b)).
  unfold st_bind at 1. rewrite (load1_at _ _ y) by done.
  unfold st_bind at 1. unfold lift at 1.
  destruct (uniform_filter1d y (b + a' + 1)) as [u|e]; [|by apply returns_fresh_raise].
  cbn [mbind result_bind].
  unfold st_bind at 1. unfold alloc. fold lf.
  assert (Hsub : ∀ c, h ⊆ <[lf := c]> h) by (intros c; by apply insert_subseteq).
  (* realignment to the left *)
  unfold st_bind at 1.
  assert (Hleft : ∃ r,
    (if decide (s > 0)
     then y_filt ← py_slice_set u None (Some (- s)) (py_slice u (Some s) None);
          Ok (py_slice_fill y_filt (Some (- s)) None NaN)
     else Ok u) = r ∧
    (if decide (s > 0)
     then f ←ₛ load1 lf;
          f0 ←ₛ lift (py_slice_set f None (Some (- s)) (py_slice f (Some s) None));
          store lf (Arr1 f0) ;;ₛ
          f1 ←ₛ load1 lf;
          store lf (Arr1 (py_slice_fill f1 (Some (- s)) None NaN))
     else st_ret tt) (<[lf := Arr1 u]> h) =
    match r with
    | Ok v => (Ok tt, <[lf := Arr1 v]> h)
    | Raise e => (Raise e, <[lf := Arr1 u]> h)
    end).
  { eexists. split; [done|]. destruct (decide (s > 0)); [|done].
    unfold st_bind at 1. rewrite load1_insert_eq.
    unfold st_bind at 1. unfold lift at 1.
    destruct (py_slice_set u None (Some (- s)) _) as [v|e]; [|done].
    cbn [mbind result_bind].
    unfold st_bind at 1. rewrite store_insert.
    unfold st_bind at 1. by rewrite load1_insert_eq, store_insert. }
  destruct Hleft as (r1 & -> & ->).
  destruct r1 as [v|e]; [|by apply returns_fresh_raise].
  cbn [mbind result_bind].
  (* realignment to the right *)
  unfold st_bind at 1.
  assert (Hright : ∃ r,
    (if decide (s < 0)
     then y_filt ← py_slice_set v (Some (- s)) None (py_slice v None (Some s));
          Ok (py_slice_fill y_filt None (Some (- s)) NaN)
     else Ok v) = r ∧
    (if decide (s < 0)
     then f ←ₛ load1 lf;
          f0 ←ₛ lift (py_slice_set f (Some (- s)) None (py_slice f None (Some s)));
          store lf (Arr1 f0) ;;ₛ
          f1 ←ₛ load1 lf;
          store lf (Arr1 (py_slice_fill f1 None (Some (- s)) NaN))
     else st_ret tt) (<[lf := Arr1 v]> h) =
    match r with
    | Ok w => (Ok tt, <[lf := Arr1 w]> h)
    | Raise e => (Raise e, <[lf := Arr1 v]> h)
    end).
  { eexists. split; [done|]. destruct (decide (s < 0)); [|done].
    unfold st_bind at 1. rewrite load1_insert_eq.
    unfold st_bind at 1. unfold lift at 1.
    destruct (py_slice_set v (Some (- s)) None _) as [w|e]; [|done].
    cbn [mbind result_bind].
    unfold st_bind at 1. rewrite store_insert.
    unfold st_bind at 1. by rewrite load1_insert_eq, store_insert. }
  destruct Hright as (r2 & -> & ->).
  destruct r2 as [w|e]; [|by apply returns_fresh_raise].
  cbn [mbind result_bind].
  (* the boundary loops *)
  unfold st_bind at 1. rewrite (refix_loop h ly lf y) by done.
  unfold st_bind at 1. rewrite (refix_loop h ly lf y) by done.
  cbn. by apply returns_fresh_insert.
Qed.

Lemma mov_avg_st_spec h ly (y : list sample) (b a : Z) :
  h !! ly = Some (Arr1 y) →
  returns_fresh h (result_map Arr1 (mov_avg y b a)) (mov_avg_st ly b a h).
Proof.
  intros Hy. unfold mov_avg_st, mov_avg.
  unfold st_bind at 1. rewrite (load1_at _ _ y) by done.
  destruct (truthy_method _).
  - by apply mov_avg_loop_st_spec.
  - by apply mov_avg_no_nan_st_spec.
Qed.

Lemma mov_avg_time_st_spec h ly (y : list sample) (freq before after : Qc) :
  h !! ly = Some (Arr1 y) →
  returns_fresh h (result_map Arr1 (mov_avg_time y freq before after))
    (mov_avg_time_st ly freq before after h).
Proof.
  intros Hy. unfold mov_avg_time_st, mov_avg_time.
  unfold st_bind at 1. unfold lift at 1.
  destruct (int_of_double (double_mul before freq)) as [sb|e];
    [|by apply returns_fresh_raise].
  cbn [mbind result_bind].
  unfold st_bind at 1. unfold lift at 1.
  destruct (if decide (after ≠ Qc_of_Z (-1)) then _ else _) as [sa|e];
    [|by apply returns_fresh_raise].
  cbn [mbind result_bind].
  pose proof (mov_avg_st_spec h ly y sb sa Hy) as [Hsub Hres].
  unfold returns_fresh, st_bind, st_ret.
  generalize dependent (mov_avg y sb sa). intros r.
  destruct (mov_avg_st ly sb sa h) as [[l|e] h']; cbn [fst snd];
    destruct r as [out|e']; cbn [mbind result_bind result_map]; intros Hres.
  - done.
  - discriminate Hres.
  - destruct Hres as (l & Hl & _). discriminate Hl.
  - done.
Qed.
End store.

Section store_variable.
Implicit Types (h : heap) (l : loc).

Lemma fresh_ne h l (c : ndarray) : h !! l = Some c → fresh (dom h) ≠ l.
Proof. intros Hl Heq. rewrite <- Heq, fresh_lookup_None in Hl. done. Qed.

Lemma subseteq_lookup_None h h' l : h ⊆ h' → h' !! l = None → h !! l = None.
Proof.
  intros Hsub Hl. destruct (h !! l) as [c|] eqn:Hc; [|done].
  eapply lookup_weaken in Hc; [|exact Hsub]. congruence.
Qed.

(** The loop of the variable-rate engine writes the output array and the
    copies of the axis it allocates, and follows the loop on values. *)
Lemma variable_freq_loop h0 (l1 l2 l3 : loc) (x : list sample)
    (a : list (list sample)) (before after : Qc) (idxs : list Z) :
  l3 ≠ l1 → l3 ≠ l2 → h0 !! l3 = None →
  ∀ (filt : list (list sample)) (hc : heap),
    h0 ⊆ hc → hc !! l1 = Some (Arr1 x) → hc !! l2 = Some (Arr2 a) →
    hc !! l3 = Some (Arr2 filt) →
    ∃ hc',
      for_each_st (variable_freq_item l1 l2 l3 before after) idxs hc =
        (result_map (λ _, tt)
           (for_each (λ i arrayYarrays_filt,
                        let this_moment := x !!! Z.to_nat i in
                        let timing_window := x in
                        let timing_window :=
                          mask_nan (λ t, sample_lt t (sample_sub this_moment (Num before)))
                                   timing_window in
                        let timing_window :=
                          mask_nan (λ t, sample_gt t (sample_add this_moment (Num after)))
                                   timing_window in
                        let indexes := argwhere_not_nan timing_window in
                        vals ← nanmean_columns a indexes;
                        set_column arrayYarrays_filt i vals) idxs filt),
         hc') ∧
      h0 ⊆ hc' ∧
      ∀ filt',
        for_each (λ i arrayYarrays_filt,
                    let this_moment := x !!! Z.to_nat i in
                    let timing_window := x in
                    let timing_window :=
                      mask_nan (λ t, sample_lt t (sample_sub this_moment (Num before)))
                               timing_window in
                    let timing_window :=
                      mask_nan (λ t, sample_gt t (sample_add this_moment (Num after)))
                               timing_window in
                    let indexes := argwhere_not_nan timing_window in
                    vals ← nanmean_columns a indexes;
                    set_column arrayYarrays_filt i vals) idxs filt = Ok filt' →
        hc' !! l3 = Some (Arr2 filt').
Proof.
  intros Hn1 Hn2 H03. cbv zeta.
  induction idxs as [|i idxs IH]; intros filt hc Hsub H1 H2 H3.
  { exists hc. cbn. split; [done|]. split; [done|]. by intros filt' [= <-]. }
  cbn [for_each_st for_each].
  assert (Htw := fresh_lookup_None hc). set (tw := fresh (dom hc)) in *.
  assert (H0tw : h0 !! tw = None) by (by eapply subseteq_lookup_None).
  assert (tw ≠ l1) by (intros ->; congruence).
  assert (tw ≠ l2) by (intros ->; congruence).
  assert (tw ≠ l3) by (intros ->; congruence).
  unfold st_bind at 1. unfold variable_freq_item at 1.
  unfold st_bind at 1. rewrite (load1_at _ _ x) by done.
  unfold st_bind at 1. unfold alloc. fold tw.
  unfold st_bind at 1. rewrite load1_insert_eq.
  unfold st_bind at 1. rewrite store_insert.
  unfold st_bind at 1. rewrite load1_insert_eq.
  unfold st_bind at 1. rewrite store_insert.
  unfold st_bind at 1. rewrite load1_insert_eq.
  unfold st_bind at 1.
  rewrite (load2_at _ _ a) by (by rewrite lookup_insert_ne).
  unfold st_bind at 1. unfold lift at 1.
  set (m2 := mask_nan _ (mask_nan _ x)).
  assert (Hsub1 : h0 ⊆ <[tw := Arr1 m2]> hc) by (by apply insert_subseteq_r).
  destruct (nanmean_columns a (argwhere_not_nan m2)) as [vals|e].
  2:{ eexists. cbn. split; [done|]. split; [done|]. done. }
  cbn [mbind result_bind].
  unfold st_bind at 1.
  rewrite (load2_at _ _ filt) by (by rewrite lookup_insert_ne).
  unfold st_bind at 1. unfold lift at 1.
  destruct (set_column filt i vals) as [f'|e].
  2:{ eexists. cbn. split; [done|]. split; [done|]. done. }
  unfold store.
  apply IH.
  - by apply insert_subseteq_r.
  - by rewrite !lookup_insert_ne.
  - by rewrite !lookup_insert_ne.
  - by rewrite lookup_insert_eq.
Qed.

Lemma mov_avg_time_variable_freq_st_spec h (lx ly : loc) (x : list sample)
    (arr : ndarray) (arg : series_arg) (before after : Qc) :
  h !! lx = Some (Arr1 x) → h !! ly = Some arr → as_series_arg arr = Ok arg →
  returns_fresh h (mov_avg_time_variable_freq x arg before after)
    (mov_avg_time_variable_freq_st lx ly before after h).
Proof.
  intros Hx Hy Harg.
  unfold mov_avg_time_variable_freq_st, mov_avg_time_variable_freq.
  unfold st_bind at 1. unfold load at 1. rewrite Hy.
  unfold st_bind at 1. unfold lift at 1. rewrite Harg.
  unfold st_bind at 1. unfold lift at 1.
  destruct (containsScalars arg) as [c|e]; [|by apply returns_fresh_raise].
  cbn [mbind result_bind].
  set (flag_arg := if c then (true, add_dimension arg) else (false, arg)).
  destruct flag_arg as [flag arg'].
  set (after' := if decide (after = Qc_of_Z (-1)) then before else after).
  unfold st_bind at 1. rewrite (load1_at _ _ x) by done.
  unfold st_bind at 1. unfold alloc at 1.
  assert (Hf1 := fresh_lookup_None h). set (l1 := fresh (dom h)) in *.
  set (h1 := <[l1 := Arr1 x]> h).
  assert (Hsub1 : h ⊆ h1) by (by apply insert_subseteq).
  unfold st_bind at 1. unfold lift at 1.
  destruct (np_array_float arg') as [a|e]; [|by apply returns_fresh_raise].
  cbn [mbind result_bind].
  unfold st_bind at 1. unfold alloc at 1.
  assert (Hf2 := fresh_lookup_None h1). set (l2 := fresh (dom h1)) in *.
  set (h2 := <[l2 := Arr2 a]> h1).
  assert (Hsub2 : h ⊆ h2).
  { etrans; [exact Hsub1|]. by apply insert_subseteq. }
  unfold st_bind at 1. unfold alloc at 1.
  assert (Hf3 := fresh_lookup_None h2). set (l3 := fresh (dom h2)) in *.
  set (h3 := <[l3 := Arr2 a]> h2).
  assert (H21 : h2 !! l1 = Some (Arr1 x)).
  { unfold h2, h1. rewrite lookup_insert_ne by (intros ->; unfold h1 in Hf2;
      by rewrite lookup_insert_eq in Hf2). by rewrite lookup_insert_eq. }
  assert (H22 : h2 !! l2 = Some (Arr2 a)) by (unfold h2; by rewrite lookup_insert_eq).
  assert (Hn1 : l3 ≠ l1) by (intros Heq; rewrite Heq in Hf3; congruence).
  assert (Hn2 : l3 ≠ l2) by (intros Heq; rewrite Heq in Hf3; congruence).
  assert (H03 : h !! l3 = None) by (by eapply subseteq_lookup_None).
  destruct (variable_freq_loop h l1 l2 l3 x a before after'
              (py_range 0 (len x) 1) Hn1 Hn2 H03 a h3)
    as (hc' & Hloop & Hsub' & Hl3).
  { etrans; [exact Hsub2|]. by apply insert_subseteq. }
  { unfold h3. by rewrite lookup_insert_ne. }
  { unfold h3. by rewrite lookup_insert_ne. }
  { unfold h3. by rewrite lookup_insert_eq. }
  unfold st_bind at 1. rewrite Hloop. clear Hloop.
  destruct (for_each _ (py_range 0 (len x) 1) a) as [filt|e];
    [|by apply returns_fresh_raise].
  cbn [result_map mbind result_bind].
  specialize (Hl3 filt eq_refl).
  destruct flag.
  - unfold st_bind at 1. unfold st_bind at 1.
    rewrite (load2_at _ _ filt) by done. unfold store, st_ret.
    split; [by apply insert_subseteq_r|].
    exists l3. cbn. by rewrite lookup_insert_eq.
  - unfold st_bind, st_ret. split; [done|]. exists l3. done.
Qed.
End store_variable.

Lemma returns_fresh_unchanged (h : heap) (expected : result ndarray)
    (run : result loc * heap) (l : loc) (c : ndarray) :
  returns_fresh h expected run → h !! l = Some c → run.2 !! l = Some c.
Proof. intros [Hsub _] Hl. by eapply lookup_weaken. Qed.

Lemma returns_fresh_no_alias (h : heap) (expected : result ndarray)
    (run : result loc * heap) (l lf : loc) (c : ndarray) :
  returns_fresh h expected run → h !! l = Some c → run.1 = Ok lf → lf ≠ l.
Proof.
  intros [_ Hres] Hl Hrun ->. destruct expected as [out|e].
  - destruct Hres as (l' & Hl' & Hnone & _). congruence.
  - congruence.
Qed.

(** C9: in a store [h] that holds the series [y], the timestamp axis [x] and
    the series or batch [arr], a call of any of the five functions leaves
    every array of [h] as it was ([h ⊆] the final store) and, when it
    returns, returns a location that [h] did not hold, whose cell holds the
    array the function computes. *)
Theorem inputs_not_mutated (h : heap) (ly lx lys : loc) (y x : list sample)
    (arr : ndarray) (arg : series_arg) (b a : Z) (freq before after : Qc) :
  h !! ly = Some (Arr1 y) → h !! lx = Some (Arr1 x) →
  h !! lys = Some arr → as_series_arg arr = Ok arg →
  returns_fresh h (result_map Arr1 (mov_avg y b a)) (mov_avg_st ly b a h) ∧
  returns_fresh h (result_map Arr1 (mov_avg_loop y b a)) (mov_avg_loop_st ly b a h) ∧
  returns_fresh h (result_map Arr1 (mov_avg_no_nan y b a))
    (mov_avg_no_nan_st ly b a h) ∧
  returns_fresh h (result_map Arr1 (mov_avg_time y freq before after))
    (mov_avg_time_st ly freq before after h) ∧
  returns_fresh h (mov_avg_time_variable_freq x arg before after)
    (mov_avg_time_variable_freq_st lx lys before after h).
Proof.
  intros Hy Hx Hys Harg. split_and!.
  - by apply mov_avg_st_spec.
  - by apply mov_avg_loop_st_spec.
  - by apply mov_avg_no_nan_st_spec.
  - by apply mov_avg_time_st_spec.
  - by eapply mov_avg_time_variable_freq_st_spec.
Qed.

Lemma inputs_not_mutated_witness :
  let h : heap :=
    <[1%positive := Arr1 [qz 1; NaN; qz 3]]>
      (<[2%positive := Arr1 [qz 0; qz 1; qz 2]]>
         {[3%positive := Arr2 [[qz 1; qz 2; qz 3]; [qz 4; qz 5; qz 6]]]}) in
  h !! 1%positive = Some (Arr1 [qz 1; NaN; qz 3]) ∧
  h !! 2%positive = Some (Arr1 [qz 0; qz 1; qz 2]) ∧
  h !! 3%positive = Some (Arr2 [[qz 1; qz 2; qz 3]; [qz 4; qz 5; qz 6]]) ∧
  as_series_arg (Arr2 [[qz 1; qz 2; qz 3]; [qz 4; qz 5; qz 6]]) =
    Ok (Batch [[qz 1; qz 2; qz 3]; [qz 4; qz 5; qz 6]]) ∧
  returns_fresh h
    (mov_avg_time_variable_freq [qz 0; qz 1; qz 2]
       (Batch [[qz 1; qz 2; qz 3]; [qz 4; qz 5; qz 6]]) (Qc_of_Z 1) (Qc_of_Z 1))
    (mov_avg_time_variable_freq_st 2%positive 3%positive (Qc_of_Z 1) (Qc_of_Z 1) h).
Proof.
  intros h.
  assert (H1 : h !! 1%positive = Some (Arr1 [qz 1; NaN; qz 3])) by reflexivity.
  assert (H2 : h !! 2%positive = Some (Arr1 [qz 0; qz 1; qz 2])) by reflexivity.
  assert (H3 : h !! 3%positive =
               Some (Arr2 [[qz 1; qz 2; qz 3]; [qz 4; qz 5; qz 6]])) by reflexivity.
  assert (H4 : as_series_arg (Arr2 [[qz 1; qz 2; qz 3]; [qz 4; qz 5; qz 6]]) =
               Ok (Batch [[qz 1; qz 2; qz 3]; [qz 4; qz 5; qz 6]])) by reflexivity.
  do 4 (split; [assumption|]).
  exact (proj2 (proj2 (proj2 (proj2
    (inputs_not_mutated h 1%positive 2%positive 3%positive _ _ _ _
       1 0 (Qc_of_Z 1) (Qc_of_Z 1) (Qc_of_Z 1) H1 H2 H3 H4))))).
Defined.

(** On that store the batch engine returns location 6: the copy of the axis
    took 4, the float copy of the batch 5. *)
Example variable_freq_st_run :
  let h : heap :=
    <[1%positive := Arr1 [qz 1; NaN; qz 3]]>
      (<[2%positive := Arr1 [qz 0; qz 1; qz 2]]>
         {[3%positive := Arr2 [[qz 1; qz 2; qz 3]; [qz 4; qz 5; qz 6]]]}) in
  let run := mov_avg_time_variable_freq_st 2%positive 3%positive
               (Qc_of_Z 1) (Qc_of_Z 1) h in
  run.1 = Ok 6%positive ∧
  run.2 !! 6%positive =
    Some (Arr2 [[qfrac 3 2; qz 2; qfrac 5 2]; [qfrac 9 2; qz 5; qfrac 11 2]]) ∧
  run.2 !! 3%positive = h !! 3%positive.
Proof. repeat split; by_evaluation. Qed.

(** * Further properties

    ** The exact path and the dispatcher *)

Lemma mov_avg_loop_window (y : list sample) (b a : Z) (i : nat) :
  0 ≤ b → 0 ≤ a → (i < length y)%nat →
  ∃ out, mov_avg_loop y b a = Ok out ∧ length out = length y ∧
    out !! i =
      Some (mean_or_missing
              (window_values y (Z.max (Z.of_nat i - b) 0)
                 (Z.min (Z.of_nat i + a) (len y - 1)))).
Proof.
  intros Hb Ha Hi. eexists. split; [apply mov_avg_loop_eq|]. split.
  { rewrite length_fmap, length_seqZ. unfold len. lia. }
  rewrite list_lookup_fmap, lookup_seqZ_lt by (unfold len; lia).
  cbn. rewrite decide_False by lia.
  rewrite clipped_nanmean_spec by (unfold len; lia).
  by rewrite Z.add_0_l.
Qed.

(** For a non-negative [samples_before] the dispatcher returns, whatever
    [samples_after] is and whether or not [y] holds NaN, the means over the
    symmetric window [i - before .. i + before] clipped to the array. *)
Theorem mov_avg_symmetric_window (y : list sample) (b a : Z) :
  0 ≤ b →
  ∃ out, mov_avg y b a = Ok out ∧ length out = length y ∧
    ∀ i : nat, (i < length y)%nat →
      out !! i =
        Some (mean_or_missing
                (window_values y (Z.max (Z.of_nat i - b) 0)
                   (Z.min (Z.of_nat i + b) (len y - 1)))).
Proof.
  intros Hb. rewrite mov_avg_always_exact_symmetric, mov_avg_loop_eq.
  eexists. split; [done|]. split.
  { rewrite length_fmap, length_seqZ. unfold len. lia. }
  intros i Hi.
  rewrite list_lookup_fmap, lookup_seqZ_lt by (unfold len; lia).
  cbn. rewrite decide_False by lia.
  rewrite clipped_nanmean_spec by (unfold len; lia).
  by rewrite Z.add_0_l.
Qed.

Lemma mov_avg_symmetric_window_witness :
  0 ≤ 1 ∧
  ∃ out, mov_avg [qz 1; NaN; qz 3; qz 4] 1 7 = Ok out ∧ length out = 4%nat.
Proof.
  split; [lia|].
  destruct (mov_avg_symmetric_window [qz 1; NaN; qz 3; qz 4] 1 7)
    as (out & Hout & Hlen & _); [lia|].
  exists out. split; [exact Hout|exact Hlen].
Defined.

(** The realignment of the fast path never fails: for a window [(b, a)]
    with [b >= 0] and [a >= 0] whose size, with the length of [y], stays
    within the signed 64-bit integers, whenever the box filter returns, the
    two slices of each assignment have the same length, and the fast path
    returns an array of the length of [y], whether or not [y] holds NaN. *)
Theorem fast_path_returns (y u : list sample) (b a : Z) :
  0 ≤ b → 0 ≤ a → b + a + len y < 2 ^ 63 →
  uniform_filter1d y (b + a + 1) = Ok u →
  ∃ out, mov_avg_no_nan y b a = Ok out ∧ length out = length y.
Proof.
  intros Hb Ha _ Hfilt.
  assert (Hlen : ∀ out, mov_avg_no_nan y b a = Ok out → length out = length y)
    by (intros out; apply mov_avg_no_nan_length).
  revert Hlen. unfold mov_avg_no_nan.
  rewrite decide_False by lia. rewrite Hfilt.
  set (s := ceil_half (a - b)).
  cbn [mbind result_bind].
  destruct (decide (s > 0)) as [Hpos|Hnpos].
  - rewrite shift_left_eq by lia. cbn [mbind result_bind].
    rewrite decide_False by lia. cbn [mbind result_bind]. eauto.
  - cbn [mbind result_bind]. destruct (decide (s < 0)) as [Hneg|Hnneg].
    + rewrite shift_right_eq by lia. cbn [mbind result_bind]. eauto.
    + cbn [mbind result_bind]. eauto.
Qed.

Lemma fast_path_returns_witness :
  0 ≤ 2 ∧ 0 ≤ 0 ∧ 2 + 0 + len [qz 1; qz 2; qz 4; qz 8; NaN] < 2 ^ 63 ∧
  uniform_filter1d [qz 1; qz 2; qz 4; qz 8; NaN] (2 + 0 + 1) =
    Ok [qfrac 4 3; qfrac 7 3; qfrac 14 3; NaN; NaN] ∧
  ∃ out, mov_avg_no_nan [qz 1; qz 2; qz 4; qz 8; NaN] 2 0 = Ok out ∧
         length out = 5%nat.
Proof.
  assert (H1 : 2 + 0 + len [qz 1; qz 2; qz 4; qz 8; NaN] < 2 ^ 63)
    by by_evaluation.
  assert (H2 : uniform_filter1d [qz 1; qz 2; qz 4; qz 8; NaN] (2 + 0 + 1) =
               Ok [qfrac 4 3; qfrac 7 3; qfrac 14 3; NaN; NaN]) by by_evaluation.
  split; [lia|]. split; [lia|]. split; [exact H1|]. split; [exact H2|].
  apply (fast_path_returns [qz 1; qz 2; qz 4; qz 8; NaN]
           [qfrac 4 3; qfrac 7 3; qfrac 14 3; NaN; NaN] 2 0); [lia|lia|exact H1|exact H2].
Defined.

(** ** Missing values, bounds and locality of the exact path *)

Lemma omap_nil_iff {A B} (f : A → option B) (l : list A) :
  omap f l = [] ↔ Forall (λ x, f x = None) l.
Proof.
  induction l as [|x l IH]; [by split; [constructor|]|].
  csimpl. destruct (f x) as [v|] eqn:Hx.
  - split; [done|]. intros H. inversion H; congruence.
  - rewrite IH. split; [by constructor|]. intros H. by inversion H.
Qed.

Lemma window_values_nil_iff (y : list sample) (lo hi : Z) :
  0 ≤ lo → hi < len y →
  window_values y lo hi = [] ↔
  ∀ j, lo ≤ j ≤ hi → y !! Z.to_nat j = Some NaN.
Proof.
  intros Hlo Hhi. unfold window_values. rewrite omap_nil_iff, Forall_forall.
  split.
  - intros Hall j Hj.
    assert (Hj' : j ∈ seqZ lo (hi - lo + 1)) by (apply elem_of_seqZ; lia).
    specialize (Hall j Hj').
    destruct (lookup_lt_is_Some_2 y (Z.to_nat j)) as [s Hs];
      [unfold len in Hhi; lia|].
    rewrite Hs in Hall |- *. by destruct s.
  - intros Hall j Hj. apply elem_of_seqZ in Hj. by rewrite Hall by lia.
Qed.

(** With a window [(b, a)], [b >= 0] and [a >= 0], entry [i] of the exact
    path is missing exactly when every sample of the window is missing; a
    sample that is present is never turned into a missing one. *)
Theorem exact_mean_missing_iff (y : list sample) (b a : Z) (i : nat) :
  0 ≤ b → 0 ≤ a → (i < length y)%nat →
  ∃ out, mov_avg_loop y b a = Ok out ∧
    (out !! i = Some NaN ↔
     ∀ j, Z.max (Z.of_nat i - b) 0 ≤ j ≤ Z.min (Z.of_nat i + a) (len y - 1) →
          y !! Z.to_nat j = Some NaN) ∧
    (∀ q, y !! i = Some (Num q) → ∃ q', out !! i = Some (Num q')).
Proof.
  intros Hb Ha Hi.
  destruct (mov_avg_loop_window y b a i Hb Ha Hi) as (out & Hout & _ & Hlk).
  exists out. split; [done|].
  assert (Hiff : out !! i = Some NaN ↔
    ∀ j, Z.max (Z.of_nat i - b) 0 ≤ j ≤ Z.min (Z.of_nat i + a) (len y - 1) →
         y !! Z.to_nat j = Some NaN).
  { rewrite <- window_values_nil_iff by (unfold len; lia). rewrite Hlk.
    unfold mean_or_missing. destruct (window_values _ _ _); split; done. }
  split; [done|].
  intros q Hq. destruct (out !! i) as [[|q']|] eqn:Ho.
  - exfalso. destruct Hiff as [Hall _].
    specialize (Hall eq_refl (Z.of_nat i)).
    rewrite Nat2Z.id, Hq in Hall. unfold len in Hall.
    assert (Some (Num q) = Some NaN) by (apply Hall; lia). done.
  - eauto.
  - rewrite Hlk in Ho. done.
Qed.

Lemma exact_mean_missing_iff_witness :
  0 ≤ 1 ∧ 0 ≤ 1 ∧ (1 < length [qz 1; NaN; NaN; NaN])%nat ∧
  ∃ out, mov_avg_loop [qz 1; NaN; NaN; NaN] 1 1 = Ok out.
Proof.
  split; [lia|]. split; [lia|]. split; [cbn; lia|].
  destruct (exact_mean_missing_iff [qz 1; NaN; NaN; NaN] 1 1 1)
    as (out & Hout & _); [lia|lia|cbn; lia|].
  exists out. exact Hout.
Defined.

Lemma Qc_of_len_cons {A} (x : A) (l : list A) :
  Qc_of_Z (len (x :: l)) = (1 + Qc_of_Z (len l))%Qc.
Proof.
  unfold len. cbn [length]. rewrite Nat2Z.inj_succ, <- Z.add_1_l.
  by rewrite Z2Qc_inj_add, Z2Qc_inj_1.
Qed.

Lemma Qc_of_len_pos {A} (l : list A) : l ≠ [] → (0 < Qc_of_Z (len l))%Qc.
Proof.
  intros Hne. rewrite <- Z2Qc_inj_0. apply (proj1 (Z2Qc_inj_lt 0 _)).
  unfold len. destruct l; [done|]. cbn [length]. lia.
Qed.

Lemma Qc_sum_bounds (lo hi : Qc) (vs : list Qc) :
  Forall (λ v, (lo ≤ v)%Qc ∧ (v ≤ hi)%Qc) vs →
  (Qc_of_Z (len vs) * lo ≤ Qc_sum vs)%Qc ∧ (Qc_sum vs ≤ Qc_of_Z (len vs) * hi)%Qc.
Proof.
  induction 1 as [|v vs [Hlo Hhi] _ [IHlo IHhi]].
  - unfold Qc_sum, len. cbn [foldr length]. change (Z.of_nat 0) with 0.
    rewrite Z2Qc_inj_0, !Qcmult_0_l. split; apply Qcle_refl.
  - rewrite Qc_of_len_cons. unfold Qc_sum in *. cbn [foldr].
    replace ((1 + Qc_of_Z (len vs)) * lo)%Qc
      with (lo + Qc_of_Z (len vs) * lo)%Qc by ring.
    replace ((1 + Qc_of_Z (len vs)) * hi)%Qc
      with (hi + Qc_of_Z (len vs) * hi)%Qc by ring.
    split; by apply Qcplus_le_compat.
Qed.

Lemma Qc_mean_bounds (lo hi : Qc) (vs : list Qc) :
  vs ≠ [] → Forall (λ v, (lo ≤ v)%Qc ∧ (v ≤ hi)%Qc) vs →
  (lo ≤ Qc_mean vs)%Qc ∧ (Qc_mean vs ≤ hi)%Qc.
Proof.
  intros Hne Hall. destruct (Qc_sum_bounds lo hi vs Hall) as [Hlo Hhi].
  assert (Hk := Qc_of_len_pos vs Hne).
  assert (Hk0 : Qc_of_Z (len vs) ≠ Q2Qc 0).
  { intros Heq. rewrite Heq in Hk. by apply Qclt_not_eq in Hk. }
  unfold Qc_mean. split.
  - apply (Qcmult_le_mono_pos_r _ _ (Qc_of_Z (len vs))); [done|].
    rewrite test_field by done. by rewrite Qcmult_comm.
  - apply (Qcmult_le_mono_pos_r _ _ (Qc_of_Z (len vs))); [done|].
    rewrite test_field by done. by rewrite (Qcmult_comm hi).
Qed.

Lemma finite_values_within (lo hi : Qc) (l : list sample) :
  samples_within lo hi l →
  Forall (λ v, (lo ≤ v)%Qc ∧ (v ≤ hi)%Qc) (finite_values l).
Proof.
  intros Hl. apply Forall_forall. intros v Hv. unfold finite_values in Hv.
  apply list_elem_of_omap in Hv as (s & Hs & Hsv).
  destruct s as [|q]; [done|]. injection Hsv as ->.
  apply list_elem_of_lookup in Hs as [j Hj]. by apply (Hl j).
Qed.

Lemma nanmean_within (lo hi : Qc) (l : list sample) (q : Qc) :
  samples_within lo hi l → nanmean l = Num q → (lo ≤ q)%Qc ∧ (q ≤ hi)%Qc.
Proof.
  intros Hl. unfold nanmean.
  pose proof (finite_values_within lo hi l Hl) as Hall.
  destruct (finite_values l) as [|v vs] eqn:Hfv; [done|].
  intros [= <-]. by apply Qc_mean_bounds.
Qed.

Lemma samples_within_sublist (lo hi : Qc) (l l' : list sample) :
  (∀ s, s ∈ l' → s ∈ l) → samples_within lo hi l → samples_within lo hi l'.
Proof.
  intros Hsub Hl j q Hj.
  assert (Hin : Num q ∈ l) by (apply Hsub, list_elem_of_lookup; eauto).
  apply list_elem_of_lookup in Hin as [k Hk]. by apply (Hl k).
Qed.

Lemma elem_of_py_slice {A} (l : list A) (start stop : option Z) (x : A) :
  x ∈ py_slice l start stop → x ∈ l.
Proof.
  unfold py_slice. intros Hx.
  eapply elem_of_sublist; [exact Hx|].
  etrans; [apply sublist_take|apply sublist_drop].
Qed.

(** Whatever the window, also a negative one, the values the exact path
    returns stay within the range of the values of [y]: a mean never leaves
    the interval that holds every non-missing sample. *)
Theorem exact_mean_within_range (y out : list sample) (b a : Z) (lo hi : Qc) :
  samples_within lo hi y → mov_avg_loop y b a = Ok out →
  samples_within lo hi out.
Proof.
  intros Hy. rewrite mov_avg_loop_eq. intros [= <-] j q Hj.
  rewrite list_lookup_fmap in Hj.
  destruct (seqZ 0 (len y) !! j) as [i|]; [|done].
  cbn in Hj. injection Hj as Hj. unfold clipped_nanmean in Hj.
  eapply nanmean_within; [|exact Hj].
  eapply samples_within_sublist; [|exact Hy].
  intros s. apply elem_of_py_slice.
Qed.

Lemma exact_mean_within_range_witness :
  samples_within (Qc_of_Z 1) (Qc_of_Z 4) [qz 1; NaN; qz 4; qz 2] ∧
  mov_avg_loop [qz 1; NaN; qz 4; qz 2] 1 1 =
    Ok [qz 1; qfrac 5 2; qz 3; qz 3] ∧
  samples_within (Qc_of_Z 1) (Qc_of_Z 4)
    [qz 1; qfrac 5 2; qz 3; qz 3].
Proof.
  assert (H : samples_within (Qc_of_Z 1) (Qc_of_Z 4) [qz 1; NaN; qz 4; qz 2]).
  { intros [|[|[|[|j]]]] q Hj; cbn in Hj; try done;
      injection Hj as <-; by vm_compute. }
  assert (E : mov_avg_loop [qz 1; NaN; qz 4; qz 2] 1 1 =
              Ok [qz 1; qfrac 5 2; qz 3; qz 3]) by by_evaluation.
  split; [exact H|]. split; [exact E|].
  exact (exact_mean_within_range _ _ 1 1 _ _ H E).
Defined.

Lemma omap_ext_in {A B} (f g : A → option B) (l : list A) :
  (∀ x, x ∈ l → f x = g x) → omap f l = omap g l.
Proof.
  induction l as [|x l IH]; intros Hfg; [done|].
  csimpl. rewrite (Hfg x) by left. rewrite IH; [done|].
  intros x' Hx'. apply Hfg. by right.
Qed.

(** Entry [i] of the exact path depends on the samples of its window only:
    two series of the same length that agree on
    [max(i-b,0) .. min(i+a,n-1)] get the same entry [i]. *)
Theorem exact_mean_local (y y' : list sample) (b a : Z) (i : nat) :
  length y = length y' → 0 ≤ b → 0 ≤ a → (i < length y)%nat →
  (∀ j, Z.max (Z.of_nat i - b) 0 ≤ j ≤ Z.min (Z.of_nat i + a) (len y - 1) →
        y !! Z.to_nat j = y' !! Z.to_nat j) →
  ∃ out out', mov_avg_loop y b a = Ok out ∧ mov_avg_loop y' b a = Ok out' ∧
              out !! i = out' !! i.
Proof.
  intros Hlen Hb Ha Hi Hagree.
  destruct (mov_avg_loop_window y b a i Hb Ha Hi) as (out & Hout & _ & Hlk).
  destruct (mov_avg_loop_window y' b a i Hb Ha) as (out' & Hout' & _ & Hlk');
    [lia|].
  exists out, out'. split; [done|]. split; [done|].
  rewrite Hlk, Hlk'. do 2 f_equal. unfold len. rewrite <- Hlen.
  unfold window_values. apply omap_ext_in. intros j Hj.
  apply elem_of_seqZ in Hj. rewrite Hagree; [done|]. unfold len. lia.
Qed.

Lemma exact_mean_local_witness :
  length [qz 1; qz 2; qz 3; qz 4] = length [qz 1; qz 2; qz 3; qz 9] ∧
  0 ≤ 1 ∧ 0 ≤ 1 ∧ (1 < length [qz 1; qz 2; qz 3; qz 4])%nat ∧
  ∃ out out',
    mov_avg_loop [qz 1; qz 2; qz 3; qz 4] 1 1 = Ok out ∧
    mov_avg_loop [qz 1; qz 2; qz 3; qz 9] 1 1 = Ok out' ∧
    out !! 1%nat = out' !! 1%nat.
Proof.
  split; [reflexivity|]. split; [lia|]. split; [lia|]. split; [cbn; lia|].
  apply (exact_mean_local [qz 1; qz 2; qz 3; qz 4] [qz 1; qz 2; qz 3; qz 9]
           1 1 1); [reflexivity|lia|lia|cbn; lia|].
  intros j Hj. unfold len in Hj. cbn in Hj.
  assert (Hc : j = 0 ∨ j = 1 ∨ j = 2) by lia.
  destruct Hc as [->|[->| ->]]; reflexivity.
Defined.

(** A window that reaches both ends of the array from every index
    ([b >= n-1] and [a >= n-1]) gives the same value everywhere, the mean of
    all the non-missing samples. *)
Theorem exact_mean_wide_window (y : list sample) (b a : Z) :
  len y - 1 ≤ b → len y - 1 ≤ a →
  mov_avg_loop y b a = Ok (replicate (length y) (nanmean y)).
Proof.
  intros Hb Ha. rewrite mov_avg_loop_eq. f_equal. apply list_eq. intros k.
  rewrite list_lookup_fmap.
  destruct (decide (k < length y)%nat) as [Hk|Hk].
  - rewrite lookup_seqZ_lt by (unfold len; lia).
    rewrite lookup_replicate_2 by done. cbn. f_equal.
    unfold len in *. rewrite decide_False by lia.
    unfold clipped_nanmean. f_equal.
    unfold py_slice, slice_lo, slice_hi, clip_index, len. cbn.
    rewrite !decide_False by lia.
    replace (Z.to_nat (Z.min (Z.max (0 + Z.of_nat k - b) 0) (Z.of_nat (length y))))
      with 0%nat by lia.
    rewrite drop_0, Nat.sub_0_r. apply take_ge. lia.
  - rewrite lookup_seqZ_ge by (unfold len; lia). cbn. symmetry.
    apply lookup_replicate_None. lia.
Qed.

Lemma exact_mean_wide_window_witness :
  len [qz 1; NaN; qz 5] - 1 ≤ 2 ∧ len [qz 1; NaN; qz 5] - 1 ≤ 4 ∧
  mov_avg_loop [qz 1; NaN; qz 5] 2 4 =
    Ok (replicate (length [qz 1; NaN; qz 5]) (nanmean [qz 1; NaN; qz 5])).
Proof.
  assert (H1 : len [qz 1; NaN; qz 5] - 1 ≤ 2) by (by vm_compute).
  assert (H2 : len [qz 1; NaN; qz 5] - 1 ≤ 4) by (by vm_compute).
  split; [exact H1|]. split; [exact H2|].
  exact (exact_mean_wide_window [qz 1; NaN; qz 5] 2 4 H1 H2).
Defined.

(** ** The constant-rate adapter on short windows *)

Lemma mov_avg_loop_zero (y : list sample) : mov_avg_loop y 0 0 = Ok y.
Proof.
  rewrite mov_avg_loop_eq. rewrite decide_False by lia. f_equal.
  apply list_eq. intros k. rewrite list_lookup_fmap.
  destruct (y !! k) as [s|] eqn:Hk.
  - assert (Hlt := lookup_lt_Some _ _ _ Hk).
    rewrite lookup_seqZ_lt by (unfold len; lia). cbn. f_equal.
    unfold clipped_nanmean.
    rewrite (py_slice_in_range y) by (unfold len; lia).
    replace (Z.to_nat (Z.min (0 + Z.of_nat k + 0) (len y) + 1
                       - Z.max (0 + Z.of_nat k - 0) 0))
      with 1%nat by (unfold len; lia).
    replace (Z.to_nat (Z.max (0 + Z.of_nat k - 0) 0)) with k by lia.
    rewrite (drop_S _ _ _ Hk). cbn [take].
    destruct s as [|q]; [done|].
    unfold nanmean, finite_values. csimpl. by rewrite Qc_mean_singleton.
  - apply lookup_ge_None in Hk.
    by rewrite lookup_seqZ_ge by (unfold len; lia).
Qed.

Lemma py_int_small (q : Qc) :
  (Qc_of_Z (-1) < q)%Qc → (q < Qc_of_Z 1)%Qc → py_int q = 0.
Proof.
  unfold Qclt, Qlt, py_int. cbn. intros Hlo Hhi.
  destruct (decide (0 ≤ Qnum q)) as [Hpos|Hneg].
  - apply Z.quot_small. lia.
  - rewrite <- (Z.opp_involutive (Qnum q)).
    rewrite Z.quot_opp_l by lia. rewrite Z.quot_small by lia. done.
Qed.

Lemma small_double_is_finite (r : Qc) :
  (Qc_of_Z (-1) < r)%Qc → (r < Qc_of_Z 1)%Qc → double_is_finite r.
Proof.
  intros Hlo Hhi. split.
  - eapply Qclt_trans; [|exact Hlo]. by_evaluation.
  - eapply Qclt_trans; [exact Hhi|]. by_evaluation.
Qed.

(** A time window shorter than one sampling period on each side (the double
    product [time_units_before * freq], rounded as the program computes it,
    lies strictly between -1 and 1 and is truncated to zero) makes
    [mov_avg_time] return [y] itself, when [time_units_after] is the
    default or its double product with [freq] is finite. *)
Theorem mov_avg_time_short_window (y : list sample) (freq before after : Qc) :
  (Qc_of_Z (-1) < double_mul before freq)%Qc →
  (double_mul before freq < Qc_of_Z 1)%Qc →
  after = Qc_of_Z (-1) ∨ double_is_finite (double_mul after freq) →
  mov_avg_time y freq before after = Ok y.
Proof.
  intros Hlo Hhi Ha. unfold mov_avg_time, int_of_double.
  rewrite (decide_True (P := double_is_finite (double_mul before freq)))
    by (by apply small_double_is_finite).
  cbn [mbind result_bind]. rewrite (py_int_small _ Hlo Hhi).
  destruct (decide (after ≠ Qc_of_Z (-1))) as [Hne|_];
    [rewrite (decide_True (P := double_is_finite (double_mul after freq)))
       by (by destruct Ha)|];
    cbn [mbind result_bind];
    rewrite mov_avg_always_exact_symmetric, mov_avg_loop_zero; done.
Qed.

Lemma mov_avg_time_short_window_witness :
  (Qc_of_Z (-1) < double_mul (Q2Qc (1 # 256)) (Qc_of_Z 100))%Qc ∧
  (double_mul (Q2Qc (1 # 256)) (Qc_of_Z 100) < Qc_of_Z 1)%Qc ∧
  (Qc_of_Z 5 = Qc_of_Z (-1)
   ∨ double_is_finite (double_mul (Qc_of_Z 5) (Qc_of_Z 100))) ∧
  mov_avg_time [qz 1; NaN; qz 3] (Qc_of_Z 100) (Q2Qc (1 # 256)) (Qc_of_Z 5) =
    Ok [qz 1; NaN; qz 3].
Proof.
  assert (H1 : (Qc_of_Z (-1) < double_mul (Q2Qc (1 # 256)) (Qc_of_Z 100))%Qc)
    by by_evaluation.
  assert (H2 : (double_mul (Q2Qc (1 # 256)) (Qc_of_Z 100) < Qc_of_Z 1)%Qc)
    by by_evaluation.
  assert (H3 : Qc_of_Z 5 = Qc_of_Z (-1)
               ∨ double_is_finite (double_mul (Qc_of_Z 5) (Qc_of_Z 100)))
    by (right; by_evaluation).
  do 3 (split; [assumption|]).
  exact (mov_avg_time_short_window [qz 1; NaN; qz 3] _ _ (Qc_of_Z 5) H1 H2 H3).
Defined.

(** The product of the doubles [1/3] and [3] is [1 - 2^-54]; it rounds to
    [1.0], and the window is one sample on each side, not zero. *)
Example mov_avg_time_rounded_product :
  round_double (Q2Qc (1 # 3)) = Q2Qc (6004799503160661 # 18014398509481984) ∧
  py_int (Q2Qc (6004799503160661 # 18014398509481984) * Qc_of_Z 3) = 0 ∧
  double_mul (Q2Qc (6004799503160661 # 18014398509481984)) (Qc_of_Z 3)
    = Qc_of_Z 1 ∧
  mov_avg_time [qz 1; qz 2; qz 6] (Qc_of_Z 3)
      (Q2Qc (6004799503160661 # 18014398509481984)) (Qc_of_Z (-1)) =
    Ok [qfrac 3 2; qz 3; qz 4].
Proof. repeat split; by_evaluation. Qed.

(** ** Mirror image and offsets *)

Lemma finite_values_app (l l' : list sample) :
  finite_values (l ++ l') = finite_values l ++ finite_values l'.
Proof. unfold finite_values. apply omap_app. Qed.

Lemma finite_values_reverse (l : list sample) :
  finite_values (reverse l) = reverse (finite_values l).
Proof.
  induction l as [|s l IH]; [done|].
  rewrite reverse_cons, finite_values_app, IH.
  destruct s as [|q]; unfold finite_values; csimpl.
  - by rewrite app_nil_r.
  - by rewrite reverse_cons.
Qed.

Lemma Qc_sum_app (l l' : list Qc) :
  Qc_sum (l ++ l') = (Qc_sum l + Qc_sum l')%Qc.
Proof.
  unfold Qc_sum. induction l as [|q l IH]; cbn [foldr app].
  - rewrite Z2Qc_inj_0. by rewrite Qcplus_0_l.
  - rewrite IH. ring.
Qed.

Lemma Qc_sum_reverse (l : list Qc) : Qc_sum (reverse l) = Qc_sum l.
Proof.
  induction l as [|q l IH]; [done|].
  rewrite reverse_cons, Qc_sum_app, IH. unfold Qc_sum. cbn [foldr].
  rewrite Z2Qc_inj_0. ring.
Qed.

Lemma nanmean_reverse (l : list sample) : nanmean (reverse l) = nanmean l.
Proof.
  rewrite !nanmean_mean_or_missing, finite_values_reverse.
  unfold mean_or_missing, Qc_mean, len.
  rewrite Qc_sum_reverse, length_reverse.
  destruct (finite_values l) as [|q vs]; [done|].
  rewrite reverse_cons. by destruct (reverse vs).
Qed.

Lemma clipped_nanmean_reverse (y : list sample) (b a k : Z) :
  0 ≤ b → 0 ≤ a → 0 ≤ k < len y →
  clipped_nanmean (reverse y) k b a = clipped_nanmean y (len y - 1 - k) a b.
Proof.
  intros Hb Ha Hk. unfold clipped_nanmean.
  assert (Hlen : len (reverse y) = len y) by (unfold len; by rewrite length_reverse).
  rewrite clipped_slice by (rewrite ?Hlen; lia).
  rewrite (clipped_slice y) by lia. rewrite Hlen.
  set (lo := Z.max (k - b) 0). set (hi := Z.min (k + a) (len y - 1)).
  replace (Z.min (len y - 1 - k + b) (len y - 1)) with (len y - 1 - lo)
    by (unfold lo; lia).
  replace (Z.max (len y - 1 - k - a) 0) with (len y - 1 - hi)
    by (unfold hi; lia).
  replace (len y - 1 - lo - (len y - 1 - hi) + 1) with (hi - lo + 1) by lia.
  rewrite <- nanmean_reverse. f_equal.
  rewrite reverse_take, reverse_drop, length_drop.
  rewrite take_drop_commute. unfold len in *.
  rewrite reverse_involutive, length_reverse.
  f_equal; [|f_equal]; unfold lo, hi in *; lia.
Qed.

(** Reversing the series and exchanging [samples_before] with
    [samples_after] (both non-negative) reverses the output of the exact
    path: the window is the mirror image. *)
Theorem exact_mean_reverse (y : list sample) (b a : Z) :
  0 ≤ b → 0 ≤ a →
  mov_avg_loop (reverse y) b a = result_map reverse (mov_avg_loop y a b).
Proof.
  intros Hb Ha. rewrite !mov_avg_loop_eq. cbn [result_map]. f_equal.
  rewrite !decide_False by lia.
  assert (Hlen : len (reverse y) = len y) by (unfold len; by rewrite length_reverse).
  rewrite Hlen. apply list_eq. intros k.
  destruct (decide (k < length y)%nat) as [Hk|Hk].
  - rewrite reverse_lookup
      by (rewrite length_fmap, length_seqZ; unfold len; lia).
    rewrite length_fmap, length_seqZ, !list_lookup_fmap.
    unfold len. rewrite !lookup_seqZ_lt by lia. cbn. f_equal.
    rewrite clipped_nanmean_reverse by (unfold len; lia).
    unfold len. f_equal. lia.
  - rewrite !lookup_ge_None_2; [done|..].
    + rewrite length_reverse, length_fmap, length_seqZ. unfold len. lia.
    + rewrite length_fmap, length_seqZ. unfold len. lia.
Qed.

Lemma exact_mean_reverse_witness :
  0 ≤ 2 ∧ 0 ≤ 0 ∧
  mov_avg_loop (reverse [qz 1; NaN; qz 3; qz 8]) 2 0 =
    result_map reverse (mov_avg_loop [qz 1; NaN; qz 3; qz 8] 0 2).
Proof.
  split; [lia|]. split; [lia|].
  apply (exact_mean_reverse [qz 1; NaN; qz 3; qz 8] 2 0); lia.
Defined.

Lemma finite_values_fmap_add (c : Qc) (l : list sample) :
  finite_values ((λ s, sample_add s (Num c)) <$> l) =
    (λ q, q + c)%Qc <$> finite_values l.
Proof.
  unfold finite_values. induction l as [|s l IH]; [done|].
  destruct s as [|q]; csimpl; by rewrite IH.
Qed.

Lemma Qc_sum_fmap_add (c : Qc) (vs : list Qc) :
  Qc_sum ((λ q, q + c)%Qc <$> vs) = (Qc_sum vs + Qc_of_Z (len vs) * c)%Qc.
Proof.
  induction vs as [|q vs IH].
  - unfold Qc_sum, len. cbn [foldr fmap list_fmap length].
    change (Z.of_nat 0) with 0. rewrite Z2Qc_inj_0. ring.
  - rewrite Qc_of_len_cons. unfold Qc_sum in *. cbn [foldr fmap list_fmap].
    rewrite IH. ring.
Qed.

Lemma mean_or_missing_nonempty (vs : list Qc) :
  vs ≠ [] → mean_or_missing vs = Num (Qc_mean vs).
Proof. by destruct vs. Qed.

Lemma nanmean_fmap_add (c : Qc) (l : list sample) :
  nanmean ((λ s, sample_add s (Num c)) <$> l) = sample_add (nanmean l) (Num c).
Proof.
  rewrite !nanmean_mean_or_missing, finite_values_fmap_add.
  destruct (decide (finite_values l = [])) as [->|Hne]; [done|].
  rewrite !mean_or_missing_nonempty by (by destruct (finite_values l)).
  cbn [sample_add]. f_equal.
  unfold Qc_mean. rewrite Qc_sum_fmap_add. unfold len at 2.
  rewrite length_fmap. fold (len (finite_values l)).
  assert (Hk := Qc_of_len_pos (finite_values l) Hne).
  assert (Hk0 : Qc_of_Z (len (finite_values l)) ≠ Q2Qc 0).
  { intros Heq. rewrite Heq in Hk. by apply Qclt_not_eq in Hk. }
  field. exact Hk0.
Qed.

Lemma py_slice_fmap {A B} (f : A → B) (l : list A) (start stop : option Z) :
  py_slice (f <$> l) start stop = f <$> py_slice l start stop.
Proof.
  unfold py_slice, slice_lo, slice_hi, len. rewrite length_fmap.
  by rewrite fmap_take, fmap_drop.
Qed.

(** Adding a constant [c] to every sample adds [c] to every entry of the
    exact path's output, for any window; missing values stay missing. *)
Theorem exact_mean_offset (y : list sample) (b a : Z) (c : Qc) :
  mov_avg_loop ((λ s, sample_add s (Num c)) <$> y) b a =
    result_map (fmap (λ s, sample_add s (Num c))) (mov_avg_loop y b a).
Proof.
  rewrite !mov_avg_loop_eq. cbn [result_map]. f_equal.
  unfold len. rewrite length_fmap. rewrite <- list_fmap_compose.
  apply list_fmap_ext. intros _ i _. cbn.
  unfold clipped_nanmean, len. rewrite length_fmap, py_slice_fmap.
  apply nanmean_fmap_add.
Qed.

(** ** The variable-rate engine on any axis *)

Lemma window_indexes_lt (x : list sample) (before after : Qc) (i : Z) :
  Forall (λ j, (j < length x)%nat) (window_indexes x before after i).
Proof.
  unfold window_indexes. cbv zeta.
  eapply Forall_impl; [apply argwhere_not_nan_lt|].
  intros j. cbn. by rewrite !length_mask_nan.
Qed.

(** On a non-empty batch of rows of [L] samples and an axis of at most [L]
    timestamps the loop runs to its end; each row gets the means of the
    columns [0 .. len(x) - 1] written over a copy of itself. *)
Lemma variable_rate_batch_general (x : list sample) (ys : list (list sample))
    (L : nat) (before after : Qc) :
  ys ≠ [] → Forall (λ row, length row = L) ys → (length x ≤ L)%nat →
  mov_avg_time_variable_freq x (Batch ys) before after =
    Ok (Arr2
          ((λ row,
              foldl (λ acc i,
                       setitem acc i
                         (column_mean
                            (window_indexes x before
                               (if decide (after = Qc_of_Z (-1)) then before
                                else after)) i row))
                    row (seqZ 0 (len x))) <$> ys)).
Proof.
  intros Hne Hrect Hlen. unfold mov_avg_time_variable_freq.
  destruct ys as [|y0 rows] eqn:Hys; [done|]. rewrite <- Hys in *.
  replace (containsScalars (Batch ys)) with (Ok false : result bool)
    by (by rewrite Hys).
  cbn [mbind result_bind].
  set (after' := if decide (after = Qc_of_Z (-1)) then before else after).
  assert (Hcols : ncols ys = L) by (rewrite Hys in *; by inversion Hrect).
  unfold np_array_float.
  rewrite (decide_True (P := Forall _ ys)) by (by rewrite Hcols).
  cbn [mbind result_bind].
  assert (Hidx : ∀ i, Forall (λ j, (j < L)%nat) (window_indexes x before after' i)).
  { intros i. eapply Forall_impl; [apply window_indexes_lt|]. cbn. lia. }
  assert (Hidxs : Forall (λ i, 0 ≤ i < Z.of_nat L) (seqZ 0 (len x))).
  { apply Forall_forall. intros i Hi. apply elem_of_seqZ in Hi.
    unfold len in Hi. lia. }
  pose proof (column_loop_rows ys L (window_indexes x before after') Hrect Hidx
                (seqZ 0 (len x)) ys Hidxs Hne eq_refl Hrect) as Hloop.
  unfold window_indexes in Hloop at 1. cbv zeta in Hloop.
  rewrite py_range_up. cbv zeta. rewrite Hloop. cbn [mbind result_bind].
  by rewrite zip_with_diag.
Qed.

(** A timestamp axis shorter than the series is accepted: the call returns
    a batch of the same shape, and every entry at an index past the end of
    the axis is the input sample, unfiltered. *)
Theorem variable_rate_short_axis (x : list sample) (ys : list (list sample))
    (L : nat) (before after : Qc) :
  ys ≠ [] → Forall (λ row, length row = L) ys → (length x ≤ L)%nat →
  ∃ out, mov_avg_time_variable_freq x (Batch ys) before after = Ok (Arr2 out) ∧
    length out = length ys ∧
    ∀ (r : nat) (row : list sample), ys !! r = Some row →
      ∃ orow, out !! r = Some orow ∧ length orow = L ∧
        ∀ i : nat, (length x ≤ i)%nat → orow !! i = row !! i.
Proof.
  intros Hne Hrect Hlen.
  rewrite (variable_rate_batch_general x ys L) by done.
  eexists. split; [done|]. split; [by rewrite length_fmap|].
  intros r row Hr. rewrite list_lookup_fmap, Hr. cbn.
  eexists. split; [done|]. split.
  { rewrite length_foldl_setitem. eapply Forall_lookup_1 in Hrect; eauto. }
  intros i Hi.
  rewrite (lookup_foldl_setitem (λ i0, column_mean _ i0 row))
    by apply Forall_seqZ_nonneg.
  rewrite decide_False; [done|].
  intros [Hin _]. apply elem_of_seqZ in Hin. unfold len in Hin. lia.
Qed.

Lemma variable_rate_short_axis_witness :
  [[qz 1; qz 2; qz 3]] ≠ [] ∧
  Forall (λ row, length row = 3%nat) [[qz 1; qz 2; qz 3]] ∧
  (length [qz 0; qz 1] ≤ 3)%nat ∧
  ∃ out, mov_avg_time_variable_freq [qz 0; qz 1] (Batch [[qz 1; qz 2; qz 3]])
           (Qc_of_Z 1) (Qc_of_Z 1) = Ok (Arr2 out) ∧
         length out = 1%nat.
Proof.
  assert (H1 : [[qz 1; qz 2; qz 3]] ≠ []) by discriminate.
  assert (H2 : Forall (λ row, length row = 3%nat) [[qz 1; qz 2; qz 3]])
    by (repeat constructor).
  assert (H3 : (length [qz 0; qz 1] ≤ 3)%nat) by (cbn; lia).
  do 3 (split; [assumption|]).
  destruct (variable_rate_short_axis [qz 0; qz 1] [[qz 1; qz 2; qz 3]] 3
              (Qc_of_Z 1) (Qc_of_Z 1) H1 H2 H3) as (out & Hout & Hlen & _).
  exists out. split; [exact Hout|exact Hlen].
Defined.

Lemma mask_nan_never (mask : sample → bool) (w : list sample) :
  (∀ t, mask t = false) → mask_nan mask w = w.
Proof.
  intros Hm. unfold mask_nan. rewrite <- (list_fmap_id w) at 2.
  apply list_fmap_ext. intros _ t _. by rewrite Hm.
Qed.

Lemma elem_of_argwhere_not_nan (w : list sample) (j : nat) :
  j ∈ argwhere_not_nan w ↔ ∃ q, w !! j = Some (Num q).
Proof.
  unfold argwhere_not_nan. rewrite list_elem_of_filter, elem_of_seq.
  rewrite list_lookup_total_alt. split.
  - intros [Hnan Hj]. destruct (w !! j) as [[|q]|]; cbn in Hnan; [done|eauto|done].
  - intros [q Hq]. rewrite Hq. split; [done|].
    apply lookup_lt_Some in Hq. lia.
Qed.

Lemma mask_nan_lookup_Num (mask : sample → bool) (w : list sample) (j : nat)
    (q : Qc) :
  mask_nan mask w !! j = Some (Num q) → w !! j = Some (Num q).
Proof.
  unfold mask_nan. rewrite list_lookup_fmap.
  destruct (w !! j) as [t|]; [|done]. cbn.
  destruct (mask t); [done|]. done.
Qed.

(** Missing timestamps: a sample whose timestamp is NaN belongs to no
    window, and at an index whose own timestamp is NaN no comparison masks
    anything, so the entry is the mean of the row over every index with a
    timestamp. *)
Theorem variable_rate_nan_timestamp (x : list sample) (ys : list (list sample))
    (before after : Qc) :
  ys ≠ [] → Forall (λ row, length row = length x) ys →
  ∃ out, mov_avg_time_variable_freq x (Batch ys) before after = Ok (Arr2 out) ∧
    (∀ (i : Z) (j : nat),
       j ∈ window_indexes x before
             (if decide (after = Qc_of_Z (-1)) then before else after) i →
       ∃ q, x !! j = Some (Num q)) ∧
    (∀ (r i : nat) (row : list sample),
       ys !! r = Some row → x !! i = Some NaN →
       ∃ orow, out !! r = Some orow ∧
         orow !! i =
           Some (mean_or_missing (values_at row (argwhere_not_nan x)))).
Proof.
  intros Hne Hrect.
  rewrite (variable_rate_batch_general x ys (length x)) by done.
  set (after' := if decide (after = Qc_of_Z (-1)) then before else after).
  eexists. split; [done|]. split.
  - intros i j Hj. unfold window_indexes in Hj. cbv zeta in Hj.
    apply elem_of_argwhere_not_nan in Hj as [q Hq].
    exists q. by do 2 apply mask_nan_lookup_Num in Hq.
  - intros r i row Hr Hi. rewrite list_lookup_fmap, Hr. cbn.
    eexists. split; [done|].
    assert (Hlt := lookup_lt_Some _ _ _ Hi).
    assert (Hrow : length row = length x).
    { eapply Forall_lookup_1 in Hrect; eauto. }
    rewrite (lookup_foldl_setitem (λ i0, column_mean _ i0 row))
      by apply Forall_seqZ_nonneg.
    rewrite decide_True
      by (split; [apply elem_of_seqZ; unfold len; lia|lia]).
    f_equal. unfold column_mean.
    rewrite nanmean_mean_or_missing, finite_values_total_lookups.
    do 2 f_equal. unfold window_indexes. cbv zeta.
    rewrite Nat2Z.id, (list_lookup_total_correct x i NaN Hi).
    by rewrite !mask_nan_never by (intros t; by destruct t).
Qed.

Lemma variable_rate_nan_timestamp_witness :
  [[qz 1; qz 2; qz 6]] ≠ [] ∧
  Forall (λ row, length row = length [qz 0; NaN; qz 9]) [[qz 1; qz 2; qz 6]] ∧
  ∃ out, mov_avg_time_variable_freq [qz 0; NaN; qz 9] (Batch [[qz 1; qz 2; qz 6]])
           (Qc_of_Z 1) (Qc_of_Z 1) = Ok (Arr2 out).
Proof.
  assert (H1 : [[qz 1; qz 2; qz 6]] ≠ []) by discriminate.
  assert (H2 : Forall (λ row, length row = length [qz 0; NaN; qz 9])
                 [[qz 1; qz 2; qz 6]]) by (repeat constructor).
  do 2 (split; [assumption|]).
  destruct (variable_rate_nan_timestamp [qz 0; NaN; qz 9] [[qz 1; qz 2; qz 6]]
              (Qc_of_Z 1) (Qc_of_Z 1) H1 H2) as (out & Hout & _).
  exists out. exact Hout.
Defined.

(** ** Shapes that do not fit *)

Lemma take_indexes_cases (row : list sample) (idxs : list nat) :
  (∃ vals, take_indexes row idxs = Ok vals) ∨
  take_indexes row idxs = Raise IndexError.
Proof.
  unfold take_indexes. induction idxs as [|j idxs IH]; [left; eauto|].
  cbn [foldr]. destruct (row !! j) as [v|]; [|by right].
  destruct IH as [[vals ->]| ->]; [left; cbn; eauto|by right].
Qed.

Lemma nanmean_columns_cases (a : list (list sample)) (idxs : list nat) :
  (∃ vals, nanmean_columns a idxs = Ok vals ∧ length vals = length a) ∨
  nanmean_columns a idxs = Raise IndexError.
Proof.
  unfold nanmean_columns. induction a as [|row a IH]; [left; eauto|].
  cbn [foldr].
  destruct (take_indexes_cases row idxs) as [[vals ->]| ->]; [|by right].
  cbn [mbind result_bind].
  destruct IH as [(rest & -> & Hlen)| ->]; [|by right].
  left. cbn. eexists. split; [done|]. cbn. by rewrite Hlen.
Qed.

Lemma ncols_zip_with_setitem (filt : list (list sample)) (vals : list sample)
    (i : Z) :
  filt ≠ [] → vals ≠ [] →
  ncols (zip_with (λ row v, setitem row i v) filt vals) = ncols filt.
Proof.
  intros Hf Hv. destruct filt as [|f filt]; [done|].
  destruct vals as [|v vals]; [done|].
  unfold ncols, setitem. cbn. apply length_insert.
Qed.

(** An index outside the columns ends the loop with an [IndexError]:
    nothing before it can fail otherwise, and the column assignment at that
    index fails if nothing failed earlier. *)
Lemma column_loop_index_error (ys : list (list sample)) (idx : Z → list nat)
    (idxs : list Z) :
  ys ≠ [] →
  ∀ filt : list (list sample),
    length filt = length ys →
    Exists (λ i, ¬ (0 ≤ i < Z.of_nat (ncols filt))) idxs →
    for_each (λ i arrayYarrays_filt,
                vals ← nanmean_columns ys (idx i);
                set_column arrayYarrays_filt i vals) idxs filt =
      Raise IndexError.
Proof.
  intros Hne. induction idxs as [|i idxs IH]; intros filt Hlen Hex.
  { by apply Exists_nil in Hex. }
  cbn [for_each].
  destruct (nanmean_columns_cases ys (idx i)) as [(vals & -> & Hvals)| ->];
    [|done].
  cbn [mbind result_bind]. unfold set_column.
  destruct (decide (0 ≤ i < Z.of_nat (ncols filt))) as [Hi|Hi]; [|done].
  cbn [mbind result_bind].
  assert (Hf : filt ≠ []) by (destruct filt, ys; done).
  assert (Hv : vals ≠ []) by (destruct vals, ys; done).
  apply IH.
  - rewrite length_zip_with. lia.
  - rewrite ncols_zip_with_setitem by done.
    apply Exists_cons in Hex as [Hbad|Hex]; [done|exact Hex].
Qed.

(** A timestamp axis longer than the rows of a non-empty batch ends the
    call with an [IndexError], and rows of unequal lengths end it with a
    [ValueError], whatever the durations: no other check is made on the
    shapes. *)
Theorem variable_rate_shape_errors (x : list sample) (ys : list (list sample))
    (before after : Qc) :
  ys ≠ [] →
  (Forall (λ row, length row = ncols ys) ys → (ncols ys < length x)%nat →
   mov_avg_time_variable_freq x (Batch ys) before after = Raise IndexError) ∧
  (¬ Forall (λ row, length row = ncols ys) ys →
   mov_avg_time_variable_freq x (Batch ys) before after = Raise ValueError).
Proof.
  intros Hne. unfold mov_avg_time_variable_freq.
  destruct ys as [|y0 rows] eqn:Hys; [done|]. rewrite <- Hys in *.
  replace (containsScalars (Batch ys)) with (Ok false : result bool)
    by (by rewrite Hys).
  cbn [mbind result_bind]. unfold np_array_float. split.
  - intros Hrect Hlong.
    rewrite (decide_True (P := Forall _ ys)) by done.
    cbn [mbind result_bind]. cbv zeta.
    set (after' := if decide (after = Qc_of_Z (-1)) then before else after).
    pose proof (column_loop_index_error ys (window_indexes x before after')
                  (py_range 0 (len x) 1) Hne ys eq_refl) as Hloop.
    unfold window_indexes in Hloop at 1. cbv zeta in Hloop.
    rewrite Hloop; [done|].
    apply Exists_exists. exists (Z.of_nat (ncols ys)). split; [|lia].
    apply elem_of_py_range_up. unfold len. lia.
  - intros Hragged.
    by rewrite (decide_False (P := Forall _ ys)) by done.
Qed.

Lemma variable_rate_shape_errors_witness :
  [[qz 1; qz 2]; [qz 3]] ≠ [] ∧
  ¬ Forall (λ row, length row = ncols [[qz 1; qz 2]; [qz 3]])
      [[qz 1; qz 2]; [qz 3]] ∧
  mov_avg_time_variable_freq [qz 0; qz 1] (Batch [[qz 1; qz 2]; [qz 3]])
    (Qc_of_Z 1) (Qc_of_Z 1) = Raise ValueError ∧
  [[qz 1; qz 2]] ≠ [] ∧
  Forall (λ row, length row = ncols [[qz 1; qz 2]]) [[qz 1; qz 2]] ∧
  (ncols [[qz 1; qz 2]] < length [qz 0; qz 1; qz 2])%nat ∧
  mov_avg_time_variable_freq [qz 0; qz 1; qz 2] (Batch [[qz 1; qz 2]])
    (Qc_of_Z 1) (Qc_of_Z 1) = Raise IndexError.
Proof.
  assert (H1 : [[qz 1; qz 2]; [qz 3]] ≠ []) by discriminate.
  assert (H2 : ¬ Forall (λ row, length row = ncols [[qz 1; qz 2]; [qz 3]])
                   [[qz 1; qz 2]; [qz 3]]).
  { intros H. inversion H as [|? ? _ H']. inversion H' as [|? ? Hbad _].
    discriminate Hbad. }
  assert (H3 : [[qz 1; qz 2]] ≠ []) by discriminate.
  assert (H4 : Forall (λ row, length row = ncols [[qz 1; qz 2]]) [[qz 1; qz 2]])
    by (repeat constructor).
  assert (H5 : (ncols [[qz 1; qz 2]] < length [qz 0; qz 1; qz 2])%nat)
    by (cbn; lia).
  do 2 (split; [assumption|]).
  split.
  { exact (proj2 (variable_rate_shape_errors [qz 0; qz 1] _ (Qc_of_Z 1)
                    (Qc_of_Z 1) H1) H2). }
  do 3 (split; [assumption|]).
  exact (proj1 (variable_rate_shape_errors [qz 0; qz 1; qz 2] _ (Qc_of_Z 1)
                  (Qc_of_Z 1) H3) H4 H5).
Defined.

(** ** The variable-rate engine on a valid axis *)

Lemma time_window_means_lookup (xs : list Qc) (row : list sample)
    (before after : Qc) (i : nat) (t : Qc) :
  xs !! i = Some t →
  time_window_means xs row before after !! i =
    Some (mean_or_missing (values_at row (time_window xs t before after))).
Proof. intros Hi. unfold time_window_means. by rewrite list_lookup_fmap, Hi. Qed.

Lemma time_window_means_fl_lookup (fl : Qc → Qc) (xs : list Qc)
    (row : list sample) (before after : Qc) (i : nat) (t : Qc) :
  xs !! i = Some t →
  time_window_means_fl fl xs row before after !! i =
    Some (mean_or_missing (values_at row (time_window_fl fl xs t before after))).
Proof.
  intros Hi. unfold time_window_means_fl. by rewrite list_lookup_fmap, Hi.
Qed.

(** A single series of two samples or more comes back as a series of the
    same length whose entry [i] is the mean of its non-missing samples at
    the indices [j] with [fl (x[i] - before) <= x[j] <= fl (x[i] + after)],
    for the rounding [fl] of the two window bounds, whatever it is. *)
Theorem variable_rate_series_window (fl : Qc → Qc) (xs : list Qc)
    (y : list sample) (before after : Qc) :
  (2 ≤ length y)%nat → length y = length xs →
  (0 ≤ before)%Qc → (0 ≤ after)%Qc →
  ∃ out, mov_avg_time_variable_freq_fl fl (Num <$> xs) (Series y) before after =
           Ok (Arr1 out) ∧
    length out = length y ∧
    ∀ (i : nat) (t : Qc), xs !! i = Some t →
      out !! i =
        Some (mean_or_missing
                (values_at y (time_window_fl fl xs t before after))).
Proof.
  intros Hge Hlen Hb Ha.
  rewrite variable_rate_series_fl_eq; [|intros ->; cbn in Hge; lia|done].
  rewrite decide_False by by apply Qc_nonneg_not_sentinel.
  set (row := time_window_means_fl fl xs y before after).
  assert (Hrow : length row = length xs) by apply length_time_window_means_fl.
  exists row. split.
  { destruct row as [|v [|w row']]; cbn in Hrow; try lia; done. }
  split; [lia|]. intros i t Hi. by apply time_window_means_fl_lookup.
Qed.

Lemma variable_rate_series_window_witness :
  (2 ≤ length grid_y)%nat ∧
  length grid_y = length grid_x ∧
  (0 ≤ double_tenth)%Qc ∧ (0 ≤ double_tenth)%Qc ∧
  ∃ out, mov_avg_time_variable_freq_fl round_double (Num <$> grid_x)
           (Series grid_y) double_tenth double_tenth = Ok (Arr1 out) ∧
         length out = length grid_y.
Proof.
  assert (H1 : (2 ≤ length grid_y)%nat) by (cbn; lia).
  assert (H2 : length grid_y = length grid_x) by reflexivity.
  assert (H3 : (0 ≤ double_tenth)%Qc) by discriminate.
  do 4 (split; [assumption|]).
  destruct (variable_rate_series_window round_double _ _ _ _ H1 H2 H3 H3)
    as (out & Hout & Hlen & _).
  exists out. split; [exact Hout|exact Hlen].
Defined.

Lemma time_window_contains_self (xs : list Qc) (i : nat) (t before after : Qc) :
  xs !! i = Some t → (0 ≤ before)%Qc → (0 ≤ after)%Qc →
  i ∈ time_window xs t before after.
Proof.
  intros Hi Hb Ha. apply elem_of_time_window. exists t. split; [done|]. split.
  - apply Qcle_minus_iff. replace (t + - (t - before))%Qc with before by ring.
    done.
  - apply Qcle_minus_iff. replace (t + after + - t)%Qc with after by ring.
    done.
Qed.

Lemma values_at_nil_iff (row : list sample) (idxs : list nat) :
  values_at row idxs = [] ↔
  ∀ j, j ∈ idxs → row !! j ≫= sample_value = None.
Proof. unfold values_at. by rewrite omap_nil_iff, Forall_forall. Qed.

Lemma values_at_within (lo hi : Qc) (row : list sample) (idxs : list nat) :
  samples_within lo hi row →
  Forall (λ v, (lo ≤ v)%Qc ∧ (v ≤ hi)%Qc) (values_at row idxs).
Proof.
  intros Hrow. apply Forall_forall. intros v Hv. unfold values_at in Hv.
  apply list_elem_of_omap in Hv as (j & _ & Hj).
  destruct (row !! j) as [[|q]|] eqn:Hq; cbn in Hj; try done.
  injection Hj as <-. by apply (Hrow j).
Qed.

(** With non-negative durations the window at [i] holds [i] itself, so a
    sample that is present is never replaced by a missing value; and every
    value in the output lies within the range of the values of its row. *)
Theorem variable_rate_present_and_within (xs : list Qc)
    (ys : list (list sample)) (before after lo hi : Qc) :
  ys ≠ [] → Forall (λ row, length row = length xs) ys →
  (0 ≤ before)%Qc → (0 ≤ after)%Qc →
  ∃ out,
    mov_avg_time_variable_freq (Num <$> xs) (Batch ys) before after =
      Ok (Arr2 out) ∧
    ∀ (r : nat) (row : list sample), ys !! r = Some row →
      ∃ orow, out !! r = Some orow ∧
        (∀ (i : nat) (q : Qc), row !! i = Some (Num q) →
           ∃ q', orow !! i = Some (Num q')) ∧
        (samples_within lo hi row → samples_within lo hi orow).
Proof.
  intros Hne Hrect Hb Ha.
  rewrite variable_rate_batch_eq by done.
  rewrite decide_False by by apply Qc_nonneg_not_sentinel.
  eexists. split; [done|]. intros r row Hr.
  rewrite list_lookup_fmap, Hr. cbn. eexists. split; [done|].
  assert (Hrow : length row = length xs).
  { eapply Forall_lookup_1 in Hrect; eauto. }
  split.
  - intros i q Hq.
    destruct (lookup_lt_is_Some_2 xs i) as [t Ht].
    { apply lookup_lt_Some in Hq. lia. }
    rewrite (time_window_means_lookup _ _ _ _ _ _ Ht).
    destruct (values_at row (time_window xs t before after)) as [|v vs] eqn:Hv.
    + exfalso.
      pose proof (proj1 (values_at_nil_iff _ _) Hv i
                    (time_window_contains_self xs i t before after Ht Hb Ha))
        as Hnone.
      by rewrite Hq in Hnone.
    + cbn. eauto.
  - intros Hwithin i q Hq.
    unfold time_window_means in Hq. rewrite list_lookup_fmap in Hq.
    destruct (xs !! i) as [t|]; [|done]. cbn in Hq. injection Hq as Hq.
    pose proof (values_at_within lo hi row (time_window xs t before after) Hwithin)
      as Hall.
    destruct (values_at row (time_window xs t before after)) as [|v vs] eqn:Hv;
      [done|].
    cbn in Hq. injection Hq as <-. by apply Qc_mean_bounds.
Qed.

Lemma variable_rate_present_and_within_witness :
  [[qz 1; NaN; qz 3]] ≠ [] ∧
  Forall (λ row, length row = length [Qc_of_Z 0; Qc_of_Z 1; Qc_of_Z 5])
         [[qz 1; NaN; qz 3]] ∧
  (0 ≤ Qc_of_Z 1)%Qc ∧ (0 ≤ Qc_of_Z 2)%Qc ∧
  ∃ out, mov_avg_time_variable_freq
           (Num <$> [Qc_of_Z 0; Qc_of_Z 1; Qc_of_Z 5])
           (Batch [[qz 1; NaN; qz 3]]) (Qc_of_Z 1) (Qc_of_Z 2) = Ok (Arr2 out).
Proof.
  assert (H1 : [[qz 1; NaN; qz 3]] ≠ []) by discriminate.
  assert (H2 : Forall (λ row, length row =
                        length [Qc_of_Z 0; Qc_of_Z 1; Qc_of_Z 5])
                 [[qz 1; NaN; qz 3]]) by (repeat constructor).
  assert (H3 : (0 ≤ Qc_of_Z 1)%Qc) by discriminate.
  assert (H4 : (0 ≤ Qc_of_Z 2)%Qc) by discriminate.
  do 4 (split; [assumption|]).
  destruct (variable_rate_present_and_within _ _ _ _ (Qc_of_Z 0) (Qc_of_Z 9)
              H1 H2 H3 H4) as (out & Hout & _).
  exists out. exact Hout.
Defined.

(** Two indices that carry the same timestamp get the same output in every
    series: the window is read off the timestamp, not off the position. *)
Theorem variable_rate_equal_timestamps (xs : list Qc) (ys : list (list sample))
    (before after t : Qc) (i j : nat) :
  ys ≠ [] → Forall (λ row, length row = length xs) ys →
  xs !! i = Some t → xs !! j = Some t →
  ∃ out,
    mov_avg_time_variable_freq (Num <$> xs) (Batch ys) before after =
      Ok (Arr2 out) ∧
    ∀ orow, orow ∈ out → orow !! i = orow !! j.
Proof.
  intros Hne Hrect Hi Hj. rewrite variable_rate_batch_eq by done.
  eexists. split; [done|]. intros orow Horow.
  apply list_elem_of_fmap in Horow as (row & -> & _).
  by rewrite (time_window_means_lookup _ _ _ _ _ _ Hi),
             (time_window_means_lookup _ _ _ _ _ _ Hj).
Qed.

Lemma variable_rate_equal_timestamps_witness :
  [[qz 1; qz 2; qz 6]] ≠ [] ∧
  Forall (λ row, length row = length [Qc_of_Z 0; Qc_of_Z 3; Qc_of_Z 0])
         [[qz 1; qz 2; qz 6]] ∧
  [Qc_of_Z 0; Qc_of_Z 3; Qc_of_Z 0] !! 0%nat = Some (Qc_of_Z 0) ∧
  [Qc_of_Z 0; Qc_of_Z 3; Qc_of_Z 0] !! 2%nat = Some (Qc_of_Z 0) ∧
  ∃ out, mov_avg_time_variable_freq
           (Num <$> [Qc_of_Z 0; Qc_of_Z 3; Qc_of_Z 0])
           (Batch [[qz 1; qz 2; qz 6]]) (Qc_of_Z 1) (Qc_of_Z 1) = Ok (Arr2 out) ∧
         ∀ orow, orow ∈ out → orow !! 0%nat = orow !! 2%nat.
Proof.
  assert (H1 : [[qz 1; qz 2; qz 6]] ≠ []) by discriminate.
  assert (H2 : Forall (λ row, length row =
                        length [Qc_of_Z 0; Qc_of_Z 3; Qc_of_Z 0])
                 [[qz 1; qz 2; qz 6]]) by (repeat constructor).
  do 2 (split; [assumption|]). split; [reflexivity|]. split; [reflexivity|].
  exact (variable_rate_equal_timestamps _ _ (Qc_of_Z 1) (Qc_of_Z 1) (Qc_of_Z 0)
           0 2 H1 H2 eq_refl eq_refl).
Defined.

(** ** Distinct timestamps and a uniform axis *)

Lemma filter_all {A} (P : A → Prop) `{∀ x, Decision (P x)} (l : list A) :
  (∀ x, x ∈ l → P x) → filter P l = l.
Proof.
  induction l as [|x l IH]; intros Hall; [done|].
  rewrite filter_cons_True by (apply Hall; left).
  f_equal. apply IH. intros x' Hx'. apply Hall. by right.
Qed.

Lemma filter_none {A} (P : A → Prop) `{∀ x, Decision (P x)} (l : list A) :
  (∀ x, x ∈ l → ¬ P x) → filter P l = [].
Proof.
  induction l as [|x l IH]; intros Hall; [done|].
  rewrite filter_cons_False by (apply Hall; left).
  apply IH. intros x' Hx'. apply Hall. by right.
Qed.

(** A predicate that holds on [lo .. lo + k - 1] and nowhere else below [n]
    filters [0 .. n - 1] down to that range. *)
Lemma filter_seq_range (P : nat → Prop) `{∀ j, Decision (P j)} (n lo k : nat) :
  (lo + k ≤ n)%nat →
  (∀ j, (j < n)%nat → P j ↔ (lo ≤ j < lo + k)%nat) →
  filter P (seq 0 n) = seq lo k.
Proof.
  intros Hle HP.
  replace n with (lo + (k + (n - lo - k)))%nat at 1 by lia.
  rewrite !seq_app, !filter_app. cbn [plus].
  rewrite (filter_none P (seq 0 lo)).
  2:{ intros j Hj. apply elem_of_seq in Hj. rewrite HP by lia. lia. }
  rewrite (filter_all P (seq lo k)).
  2:{ intros j Hj. apply elem_of_seq in Hj. rewrite HP by lia. lia. }
  rewrite (filter_none P (seq (lo + k) _)).
  2:{ intros j Hj. apply elem_of_seq in Hj. rewrite HP by lia. lia. }
  by rewrite app_nil_r.
Qed.

Lemma Qcle_antisym_iff (t x : Qc) :
  (t - Q2Qc 0 ≤ x)%Qc ∧ (x ≤ t + Q2Qc 0)%Qc ↔ x = t.
Proof.
  replace (t - Q2Qc 0)%Qc with t by ring.
  replace (t + Q2Qc 0)%Qc with t by ring.
  split.
  - intros [H1 H2]. by apply Qcle_antisym.
  - intros ->. split; apply Qcle_refl.
Qed.

Lemma time_window_zero_distinct (xs : list Qc) (i : nat) (t : Qc) :
  NoDup xs → xs !! i = Some t →
  time_window xs t (Q2Qc 0) (Q2Qc 0) = [i].
Proof.
  intros Hnd Hi. unfold time_window.
  assert (Hlt := lookup_lt_Some _ _ _ Hi).
  rewrite (filter_seq_range _ (length xs) i 1); [done|lia|].
  intros j Hj. unfold within_window.
  destruct (lookup_lt_is_Some_2 xs j Hj) as [xj Hxj]. rewrite Hxj.
  rewrite Qcle_antisym_iff. split.
  - intros ->. assert (j = i) by (eapply NoDup_lookup; eauto). lia.
  - intros Hji. assert (j = i) as -> by lia. congruence.
Qed.

(** With pairwise distinct timestamps a window of zero duration on both
    sides holds the index itself only: the batch comes back unchanged,
    missing values included. *)
Theorem variable_rate_zero_window (xs : list Qc) (ys : list (list sample)) :
  NoDup xs → ys ≠ [] → Forall (λ row, length row = length xs) ys →
  mov_avg_time_variable_freq (Num <$> xs) (Batch ys) (Q2Qc 0) (Q2Qc 0) =
    Ok (Arr2 ys).
Proof.
  intros Hnd Hne Hrect. rewrite variable_rate_batch_eq by done.
  rewrite decide_False by done. do 2 f_equal.
  rewrite <- (list_fmap_id ys) at 2.
  apply Forall_fmap_ext_1. eapply Forall_impl; [exact Hrect|].
  intros row Hrow. cbn in Hrow |- *. apply list_eq. intros i.
  destruct (xs !! i) as [t|] eqn:Hi.
  - rewrite (time_window_means_lookup _ _ _ _ _ _ Hi).
    rewrite (time_window_zero_distinct xs i t Hnd Hi).
    unfold values_at. csimpl.
    destruct (lookup_lt_is_Some_2 row i) as [s Hs].
    { apply lookup_lt_Some in Hi. lia. }
    rewrite Hs. destruct s as [|q]; csimpl; [done|].
    by rewrite Qc_mean_singleton.
  - apply lookup_ge_None in Hi.
    rewrite !lookup_ge_None_2; [done|lia|].
    rewrite length_time_window_means. lia.
Qed.

Lemma variable_rate_zero_window_witness :
  NoDup [Qc_of_Z 3; Qc_of_Z 1; Qc_of_Z 2] ∧
  [[qz 1; NaN; qz 3]] ≠ [] ∧
  Forall (λ row, length row = length [Qc_of_Z 3; Qc_of_Z 1; Qc_of_Z 2])
         [[qz 1; NaN; qz 3]] ∧
  mov_avg_time_variable_freq (Num <$> [Qc_of_Z 3; Qc_of_Z 1; Qc_of_Z 2])
    (Batch [[qz 1; NaN; qz 3]]) (Q2Qc 0) (Q2Qc 0) = Ok (Arr2 [[qz 1; NaN; qz 3]]).
Proof.
  assert (H1 : NoDup [Qc_of_Z 3; Qc_of_Z 1; Qc_of_Z 2]).
  { apply (bool_decide_unpack _). by vm_compute. }
  assert (H2 : [[qz 1; NaN; qz 3]] ≠ []) by discriminate.
  assert (H3 : Forall (λ row, length row =
                        length [Qc_of_Z 3; Qc_of_Z 1; Qc_of_Z 2])
                 [[qz 1; NaN; qz 3]]) by (repeat constructor).
  do 3 (split; [assumption|]).
  exact (variable_rate_zero_window _ _ H1 H2 H3).
Defined.
